(** * libbpfgo, prog.go: the program binding over libbpf

    A shallow embedding of [prog.go].  The file is a binding: every operation
    marshals its arguments, calls the native library (or the Go standard
    library), turns the answer into a Go [error] and keeps a little
    bookkeeping ([pinnedPath], the module's [links]).  The native library and
    the operating system are outside the file, so they are an interface
    ([Native]) whose answers are arbitrary; every call of a C function or of
    the Go standard library is logged (reads of C memory are not), which is
    what lets the theorems speak about which native calls an operation makes
    and with which arguments. *)

From Stdlib Require Import ZArith Lia Ascii.
From stdpp Require Import base option list gmap strings pretty.

Local Open Scope Z_scope.

(** ** Machine integers

    Go and C integers of fixed width, as [Z] with the wrap-around of a
    conversion written out. *)

Definition wrap_unsigned (bits z : Z) : Z := z mod 2 ^ bits.
Definition wrap_signed (bits z : Z) : Z :=
  (z + 2 ^ (bits - 1)) mod 2 ^ bits - 2 ^ (bits - 1).

(** [C.int(x)], [C.uint(x)] / [uint32(x)] / [C.uint32_t(x)], Go's [int(x)]
    and [uintptr(x)] on a 64-bit platform (libbpf is Linux only). *)
Definition C_int : Z → Z := wrap_signed 32.
Definition C_uint : Z → Z := wrap_unsigned 32.
Definition go_int : Z → Z := wrap_signed 64.
Definition uintptr : Z → Z := wrap_unsigned 64.

(** [-retC] on a [C.int]: Go's negation wraps. *)
Definition neg_C_int (retC : Z) : Z := C_int (- retC).

(** ** Errors *)

(** [type attachTo struct]. *)
Record attachTo := { symName : string; symAddr : Z; isRet : bool }.

(** The operands of the format verbs other than the error operand. *)
Inductive farg :=
| FStr (s : string)
| FInt (z : Z)
| FInts (zs : list Z)
| FAttachTo (a : attachTo).

(** A Go [error] value: a [syscall.Errno], an error made by the Go standard
    library ([filepath], [net], [syscall.Open]), or the result of
    [fmt.Errorf format args... operand], where [wraps] tells whether the
    operand is formatted with [%w] (and then is what [Unwrap] returns) or
    with [%v]. *)
#[warnings="-register-all"]
Inductive error :=
| Errno (code : Z)
| LibError (msg : string)
| Errorf (format : string) (args : list farg) (operand : option error) (wraps : bool).

(** [errors.Unwrap]. *)
Definition Unwrap (e : error) : option error :=
  match e with
  | Errorf _ _ operand true => operand
  | _ => None
  end.

(** [syscall.Errno(-retC)]: the negation is a [C.int], the conversion to the
    [uintptr] underlying [Errno] sign-extends. *)
Definition Errno_of_ret (retC : Z) : error := Errno (uintptr (neg_C_int retC)).

(** The [error] that cgo's two-result call form yields for C's [errno]. *)
Definition cgo_errno (errno : Z) : option error :=
  if errno =? 0 then None else Some (Errno errno).

(** ** Data model *)

(** Modelled from the spec: the declaration of [BPFLinkType] is not in
    prog.go (only the constants it uses are named there); the link-type tag
    of the data model, one constructor per constant prog.go mentions. *)
Inductive BPFLinkType :=
| Tracing | Cgroup | CgroupLegacy | XDP | Tracepoint | RawTracepoint | LSM
| PerfEvent | Kprobe | Kretprobe | Netns | Iter | Uprobe | Uretprobe | USDT.

Module BPFProg.
(** [type BPFProg struct]; [prog] is the C pointer, [module] a Go pointer. *)
Record t := mk { prog : Z; module : nat; pinnedPath : string }.
End BPFProg.
Abbreviation BPFProg := BPFProg.t.

Module bpfLinkLegacy.
(** Modelled from the spec: the declaration of [bpfLinkLegacy] is not in
    prog.go; the legacy-attachment metadata, with the two fields the
    composite literal of [AttachCgroupLegacy] assigns. *)
Record t := mk { attachType : Z; cgroupDir : string }.
End bpfLinkLegacy.
Abbreviation bpfLinkLegacy := bpfLinkLegacy.t.

Module BPFLink.
(** Modelled from the spec: the declaration of [BPFLink] is not in prog.go;
    the bookkeeping fields of a link (event name, link-type tag, legacy
    metadata) with the creating program, as the composite literals of
    prog.go assign them.  [link] is the C pointer (0 is nil), [prog] the Go
    pointer to the creating program, [legacy] a Go pointer (None is nil). *)
Record t := mk {
  link : Z;
  prog : nat;
  linkType : BPFLinkType;
  eventName : string;
  legacy : option bpfLinkLegacy;
}.
End BPFLink.
Abbreviation BPFLink := BPFLink.t.

Module Module.
(** Modelled from the spec: the declaration of [Module] is not in prog.go;
    the one field prog.go uses, the links created through the module's
    programs ([[]*BPFLink]). *)
Record t := mk { links : list nat }.
End Module.
Abbreviation Module := Module.t.

(** [type IterOpts struct]. *)
Record IterOpts := {
  MapFd : Z; CgroupIterOrder : Z; CgroupFd : Z; CgroupId : Z;
  Tid : Z; Pid : Z; PidFd : Z;
}.

(** A Go [[]byte] that is not nil: the address of its backing array and its
    elements as Go reads them when the slice is taken.  The nil slice is
    [None].  prog.go hands the address to C ([&buf[0]]), so a native call
    can write to the backing array; [elems] does not follow such writes.
    The buffers [Run] fills on success are fresh copies made by [C.GoBytes]
    from the native memory ([bytes_at]). *)
Record bytes := { base : Z; elems : list Z }.

(** [type RunOpts struct]. *)
Record RunOpts := {
  DataIn : option bytes;
  DataOut : option bytes;
  DataSizeIn : Z;
  DataSizeOut : Z;
  CtxIn : option bytes;
  CtxOut : option bytes;
  CtxSizeIn : Z;
  CtxSizeOut : Z;
  RetVal : Z;
  Repeat : Z;
  Duration : Z;
  Flags : Z;
  CPU : Z;
  BatchSize : Z;
}.

(** The fields of C's [struct bpf_test_run_opts] that prog.go reads through
    [optsC]. *)
Record bpf_test_run_opts := {
  data_in : Z;
  data_out : Z;
  data_size_in : Z;
  data_size_out : Z;
  ctx_in : Z;
  ctx_out : Z;
  ctx_size_in : Z;
  ctx_size_out : Z;
  retval : Z;
  repeat_ : Z;
  duration : Z;
  flags : Z;
  cpu : Z;
  batch_size : Z;
}.

(** ** The native boundary *)

(** The C functions prog.go calls through cgo, with the arguments it passes.
    A [C.CString] copy is passed as the string it holds; a pointer to the
    first element of a [[]uint64] as the elements. *)
Inductive ccall :=
| bpf_program__fd (prog : Z)
| bpf_program__pin (prog : Z) (path : string)
| bpf_program__unpin (prog : Z) (path : string)
| bpf_program__name (prog : Z)
| bpf_program__section_name (prog : Z)
| bpf_program__type (prog : Z)
| bpf_program__set_autoload (prog : Z) (autoload : bool)
| bpf_program__autoload (prog : Z)
| bpf_program__set_autoattach (prog : Z) (autoattach : bool)
| bpf_program__autoattach (prog : Z)
| bpf_program__attach (prog : Z)
| bpf_program__set_attach_target (prog : Z) (attachProgFD : Z) (attachFuncName : string)
| bpf_program__set_type (prog : Z) (progType : Z)
| bpf_program__set_expected_attach_type (prog : Z) (attachType : Z)
| bpf_program__attach_cgroup (prog : Z) (cgroupDirFD : Z)
| cgo_bpf_prog_attach_cgroup_legacy (progFD cgroupDirFD attachType : Z)
| cgo_bpf_prog_detach_cgroup_legacy (progFD cgroupDirFD attachType : Z)
| bpf_program__attach_xdp (prog : Z) (ifindex : Z)
| cgo_bpf_xdp_attach_opts_new (fd : Z)
| cgo_bpf_xdp_attach_opts_free (opts : Z)
| bpf_xdp_attach (ifindex progFD flag optsC : Z)
| bpf_xdp_detach (ifindex flag optsC : Z)
| bpf_program__attach_tracepoint (prog : Z) (category name : string)
| bpf_program__attach_raw_tracepoint (prog : Z) (tpEvent : string)
| bpf_program__attach_lsm (prog : Z)
| bpf_program__attach_perf_event (prog : Z) (fd : Z)
| cgo_bpf_kprobe_opts_new (cookie offset : Z) (retprobe : bool) (mode : Z)
| cgo_bpf_kprobe_opts_free (opts : Z)
| bpf_program__attach_kprobe_opts (prog : Z) (symName : string) (optsC : Z)
| bpf_program__attach_netns (prog : Z) (fd : Z)
| cgo_bpf_iter_attach_opts_new (mapFd order cgroupFd cgroupId tid pid pidFd : Z)
| cgo_bpf_iter_attach_opts_free (opts : Z)
| bpf_program__attach_iter (prog : Z) (optsC : Z)
| bpf_program__attach_uprobe (prog : Z) (retprobe : bool) (pid : Z) (path : string) (offset : Z)
| cgo_bpf_program__attach_uprobe_multi
    (prog : Z) (pid : Z) (path : string) (offsets cookies : list Z) (cnt : Z) (retprobe : bool)
| bpf_prog_attach (progFD targetFd attachType flags : Z)
| bpf_prog_detach2 (progFD targetFd attachType : Z)
| bpf_program__attach_usdt (prog : Z) (pid : Z) (binaryPath provider name : string)
| cgo_bpf_test_run_opts_new
    (dataIn dataOut dataSizeIn dataSizeOut ctxIn ctxOut ctxSizeIn ctxSizeOut : Z)
    (repeat flags cpu batchSize : Z)
| cgo_bpf_test_run_opts_free (opts : Z)
| bpf_prog_test_run_opts (progFD : Z) (optsC : Z).

(** What an operation did at the boundary, in the order it did it: a C call
    with the value and the [errno] it came back with, or a call of the Go
    standard library with its results. *)
Inductive event :=
| EvC (c : ccall) (ret errno : Z)
| EvAbs (path : string) (abs : string) (err : option error)
| EvOpen (path : string) (mode perm : Z) (fd : Z) (err : option error)
| EvClose (fd : Z)
| EvInterfaceByName (name : string) (iface : option Z) (err : option error).

(** The native library, the kernel behind it and the Go standard library, as
    prog.go sees them: each call answers from the current state of the world
    [W] and may change it.  [cgo] gives a C function's result (a pointer is
    its address, 0 for NULL; a C [bool] is non-zero for true) and the [errno]
    it leaves; [GoString], [byte_at] and [test_run_opts_at] read C memory;
    [GoBytes_base] is the address Go's allocator gives the copy [C.GoBytes]
    makes; [net_InterfaceByName] answers the [Index] of the interface it
    found (None for a nil [*net.Interface]). *)
Class Native (W : Type) := {
  cgo : ccall → W → Z * Z * W;
  GoString : Z → W → string;
  byte_at : Z → W → Z;
  GoBytes_base : Z → Z → W → Z;
  test_run_opts_at : Z → W → bpf_test_run_opts;
  filepath_Abs : string → W → string * option error * W;
  syscall_Open : string → Z → Z → W → Z * option error * W;
  syscall_Close : Z → W → W;
  net_InterfaceByName : string → W → option Z * option error * W;
}.

(** ** Go programs as state transformers *)

(** The run-time panics prog.go can raise. *)
Inductive panic := NilDereference | IndexOutOfRange | SliceBoundsOutOfRange | GoBytesLength.

Inductive outcome (A : Type) :=
| Returns (a : A)
| Panics (why : panic).
Arguments Returns {A} a.
Arguments Panics {A} why.

Section Binding.
Context {W : Type} `{!Native W}.

(** The state an operation runs in: the world behind the boundary, the log
    of the calls made through it, and the Go heap as far as prog.go
    touches it (programs and modules by address, the links allocated so
    far; the address of a link is its index in [linkheap]). *)
Record State := mkState {
  world : W;
  trace : list event;
  progs : gmap nat BPFProg;
  modules : gmap nat Module;
  linkheap : list BPFLink;
}.

Definition go (A : Type) : Type := State → outcome A * State.

Definition ret {A} (a : A) : go A := λ st, (Returns a, st).

Definition go_bind {A B} (m : go A) (k : A → go B) : go B :=
  λ st, match m st with
        | (Returns a, st') => k a st'
        | (Panics why, st') => (Panics why, st')
        end.

Definition go_panic {A} (why : panic) : go A := λ st, (Panics why, st).

(** [defer cleanup] before [body]: the cleanup runs when the function
    leaves, whether [body] returned or panicked. *)
Definition defer {A} (cleanup : go unit) (body : go A) : go A :=
  λ st, let '(o, st1) := body st in
        let '(_, st2) := cleanup st1 in (o, st2).

Definition set_world (w : W) (st : State) : State :=
  mkState w (trace st) (progs st) (modules st) (linkheap st).
Definition log (ev : event) (st : State) : State :=
  mkState (world st) (trace st ++ [ev]) (progs st) (modules st) (linkheap st).
Definition set_progs (ps : gmap nat BPFProg) (st : State) : State :=
  mkState (world st) (trace st) ps (modules st) (linkheap st).
Definition set_modules (ms : gmap nat Module) (st : State) : State :=
  mkState (world st) (trace st) (progs st) ms (linkheap st).
Definition set_linkheap (ls : list BPFLink) (st : State) : State :=
  mkState (world st) (trace st) (progs st) (modules st) ls.
End Binding.

Arguments State W : clear implicits.
Arguments go W A : clear implicits.

Notation "x <- m ;; k" := (go_bind m (λ x, k))
  (at level 20, m at level 99, k at level 200, only parsing).
Notation "' pat <- m ;; k" := (go_bind m (λ x, match x with pat => k end))
  (at level 20, pat pattern, m at level 99, k at level 200, only parsing).

Section Boundary.
Context {W : Type} `{!Native W}.

(** A C call through cgo: its result and the [errno] it left. *)
Definition call (c : ccall) : go W (Z * Z) :=
  λ st, let '(r, e, w) := cgo c (world st) in
        (Returns (r, e), log (EvC c r e) (set_world w st)).

(** A C call whose result is dropped. *)
Definition call_ (c : ccall) : go W unit := _ <- call c ;; ret tt.

Definition Abs (path : string) : go W (string * option error) :=
  λ st, let '(abs, err, w) := filepath_Abs path (world st) in
        (Returns (abs, err), log (EvAbs path abs err) (set_world w st)).

Definition Open (path : string) (mode perm : Z) : go W (Z * option error) :=
  λ st, let '(fd, err, w) := syscall_Open path mode perm (world st) in
        (Returns (fd, err), log (EvOpen path mode perm fd err) (set_world w st)).

Definition Close (fd : Z) : go W unit :=
  λ st, (Returns tt, log (EvClose fd) (set_world (syscall_Close fd (world st)) st)).

Definition InterfaceByName (name : string) : go W (option Z * option error) :=
  λ st, let '(iface, err, w) := net_InterfaceByName name (world st) in
        (Returns (iface, err), log (EvInterfaceByName name iface err) (set_world w st)).

(** [C.GoString(ptr)]. *)
Definition C_GoString (ptr : Z) : go W string :=
  λ st, (Returns (GoString ptr (world st)), st).

(** The copy of the [n] bytes of C memory at [ptr]. *)
Definition bytes_at (ptr n : Z) (w : W) : bytes :=
  {| base := GoBytes_base ptr n w;
     elems := (λ i, byte_at (ptr + i) w) <$> seqZ 0 n |}.

(** [C.GoBytes(ptr, n)]: a fresh slice holding the [n] bytes at [ptr]; a
    negative length panics. *)
Definition C_GoBytes (ptr n : Z) : go W bytes :=
  λ st, if n <? 0 then (Panics GoBytesLength, st)
        else (Returns (bytes_at ptr n (world st)), st).

(** [*p] for a [*BPFProg], [*Module]. *)
Definition deref_prog (p : nat) : go W BPFProg :=
  λ st, match progs st !! p with
        | Some pr => (Returns pr, st)
        | None => (Panics NilDereference, st)
        end.

Definition deref_module (m : nat) : go W Module :=
  λ st, match modules st !! m with
        | Some md => (Returns md, st)
        | None => (Panics NilDereference, st)
        end.

(** [p.pinnedPath = s]. *)
Definition set_pinnedPath (p : nat) (s : string) : go W unit :=
  pr <- deref_prog p ;;
  λ st, (Returns tt,
         set_progs (<[p := BPFProg.mk (BPFProg.prog pr) (BPFProg.module pr) s]> (progs st)) st).

(** [&BPFLink{...}]: the literal is allocated and its address returned. *)
Definition new_BPFLink (l : BPFLink) : go W nat :=
  λ st, (Returns (length (linkheap st)), set_linkheap (linkheap st ++ [l]) st).

(** [p.module.links = append(p.module.links, bpfLink)]. *)
Definition append_link (p : nat) (bpfLink : nat) : go W unit :=
  pr <- deref_prog p ;;
  md <- deref_module (BPFProg.module pr) ;;
  λ st, (Returns tt,
         set_modules (<[BPFProg.module pr := Module.mk (Module.links md ++ [bpfLink])]> (modules st)) st).
End Boundary.

(** ** Strings *)

(** [s[1:]] on a Go string; slicing past the end panics. *)
Definition from1 (s : string) : option string :=
  match s with
  | EmptyString => None
  | String _ rest => Some rest
  end.

(** [strings.ReplaceAll(s, old, new)] at a one-byte [old], the only form
    prog.go uses. *)
Fixpoint ReplaceAll (s : string) (old : Ascii.ascii) (new : string) : string :=
  match s with
  | EmptyString => EmptyString
  | String c rest =>
      (if Ascii.eqb c old then new else String c EmptyString) +:+ ReplaceAll rest old new
  end.

(** [fmt.Sprintf] of an integer with [%d], and of a [[]uint64] with [%v]. *)
Definition fmt_d (z : Z) : string := pretty z.
Definition fmt_v_uints (zs : list Z) : string :=
  "[" +:+ String.concat " " (fmt_d <$> zs) +:+ "]".

(** [syscall.O_DIRECTORY] and [syscall.O_RDONLY] (linux/amd64). *)
Definition O_DIRECTORY : Z := 0x10000.
Definition O_RDONLY : Z := 0.

(** ** prog.go *)

Section Prog.
Context {W : Type} `{!Native W}.

Definition FileDescriptor (p : nat) : go W Z :=
  pr <- deref_prog p ;;
  '(fd, _) <- call (bpf_program__fd (BPFProg.prog pr)) ;;
  ret (go_int fd).

Definition GetFd (p : nat) : go W Z := FileDescriptor p.

Definition Name (p : nat) : go W string :=
  pr <- deref_prog p ;;
  '(ptr, _) <- call (bpf_program__name (BPFProg.prog pr)) ;;
  C_GoString ptr.

Definition GetName (p : nat) : go W string := Name p.

Definition Pin (p : nat) (path : string) : go W (option error) :=
  '(absPath, err) <- Abs path ;;
  match err with
  | Some e => ret (Some (Errorf "invalid path: %s: %v" [FStr path] (Some e) false))
  | None =>
      pr <- deref_prog p ;;
      '(retC, _) <- call (bpf_program__pin (BPFProg.prog pr) absPath) ;;
      if retC <? 0 then
        name <- Name p ;;
        ret (Some (Errorf "failed to pin program %s to %s: %w"
                     [FStr name; FStr path] (Some (Errno_of_ret retC)) true))
      else
        _ <- set_pinnedPath p absPath ;;
        ret None
  end.

Definition Unpin (p : nat) (path : string) : go W (option error) :=
  pr <- deref_prog p ;;
  '(retC, _) <- call (bpf_program__unpin (BPFProg.prog pr) path) ;;
  if retC <? 0 then
    name <- Name p ;;
    ret (Some (Errorf "failed to unpin program %s to %s: %w"
                 [FStr name; FStr path] (Some (Errno_of_ret retC)) true))
  else
    _ <- set_pinnedPath p "" ;;
    ret None.

Definition GetModule (p : nat) : go W nat :=
  pr <- deref_prog p ;; ret (BPFProg.module pr).

Definition SectionName (p : nat) : go W string :=
  pr <- deref_prog p ;;
  '(ptr, _) <- call (bpf_program__section_name (BPFProg.prog pr)) ;;
  C_GoString ptr.

Definition GetSectionName (p : nat) : go W string := SectionName p.

Definition PinPath (p : nat) : go W string :=
  pr <- deref_prog p ;; ret (BPFProg.pinnedPath pr).

Definition GetPinPath (p : nat) : go W string := PinPath p.

Definition GetType (p : nat) : go W Z :=
  pr <- deref_prog p ;;
  '(t, _) <- call (bpf_program__type (BPFProg.prog pr)) ;;
  ret (C_uint t).

Definition SetAutoload (p : nat) (autoload : bool) : go W (option error) :=
  pr <- deref_prog p ;;
  '(retC, _) <- call (bpf_program__set_autoload (BPFProg.prog pr) autoload) ;;
  if retC <? 0 then
    ret (Some (Errorf "failed to set bpf program autoload: %w" []
                 (Some (Errno_of_ret retC)) true))
  else ret None.

Definition Autoload (p : nat) : go W bool :=
  pr <- deref_prog p ;;
  '(b, _) <- call (bpf_program__autoload (BPFProg.prog pr)) ;;
  ret (negb (b =? 0)).

Definition SetAutoattach (p : nat) (autoload : bool) : go W unit :=
  pr <- deref_prog p ;;
  call_ (bpf_program__set_autoattach (BPFProg.prog pr) autoload).

Definition Autoattach (p : nat) : go W bool :=
  pr <- deref_prog p ;;
  '(b, _) <- call (bpf_program__autoattach (BPFProg.prog pr)) ;;
  ret (negb (b =? 0)).

Definition AttachGeneric (p : nat) : go W (option nat * option error) :=
  pr <- deref_prog p ;;
  '(linkC, errno) <- call (bpf_program__attach (BPFProg.prog pr)) ;;
  if linkC =? 0 then
    ret (None, Some (Errorf "failed to attach program: %w" [] (cgo_errno errno) true))
  else
    name <- Name p ;;
    l <- new_BPFLink (BPFLink.mk linkC p Tracing ("tracing-" +:+ name) None) ;;
    ret (Some l, None).

Definition SetAttachTarget (p : nat) (attachProgFD : Z) (attachFuncName : string)
  : go W (option error) :=
  pr <- deref_prog p ;;
  '(retC, _) <- call (bpf_program__set_attach_target
                        (BPFProg.prog pr) (C_int attachProgFD) attachFuncName) ;;
  if retC <? 0 then
    name <- Name p ;;
    ret (Some (Errorf "failed to set attach target for program %s %s %w"
                 [FStr name; FStr attachFuncName] (Some (Errno_of_ret retC)) true))
  else ret None.

(** The operand [progType.String()] is kept as the value of [progType]:
    the name table is not in prog.go. *)
Definition SetType (p : nat) (progType : Z) : go W (option error) :=
  pr <- deref_prog p ;;
  '(retC, _) <- call (bpf_program__set_type (BPFProg.prog pr) progType) ;;
  if retC <? 0 then
    name <- Name p ;;
    ret (Some (Errorf "failed to set prog_type %s for program %s: %w"
                 [FInt progType; FStr name] (Some (Errno_of_ret retC)) true))
  else ret None.

Definition SetProgramType (p : nat) (progType : Z) : go W unit :=
  _ <- SetType p progType ;; ret tt.

Definition SetExpectedAttachType (p : nat) (attachType : Z) : go W (option error) :=
  pr <- deref_prog p ;;
  '(retC, _) <- call (bpf_program__set_expected_attach_type (BPFProg.prog pr) attachType) ;;
  if retC <? 0 then
    name <- Name p ;;
    ret (Some (Errorf "failed to set attach_type %s for program %s: %w"
                 [FInt attachType; FStr name] (Some (Errno_of_ret retC)) true))
  else ret None.

Definition SetAttachType (p : nat) (attachType : Z) : go W unit :=
  _ <- SetExpectedAttachType p attachType ;; ret tt.

Definition getCgroupDirFD (cgroupV2DirPath : string) : go W (Z * option error) :=
  '(fd, err) <- Open cgroupV2DirPath (Z.lor O_DIRECTORY O_RDONLY) 0 ;;
  if fd <? 0 then
    ret (0, Some (Errorf "failed to open cgroupv2 directory path %s: %w"
                    [FStr cgroupV2DirPath] err true))
  else ret (fd, None).

Definition AttachCgroup (p : nat) (cgroupV2DirPath : string)
  : go W (option nat * option error) :=
  '(cgroupDirFD, err) <- getCgroupDirFD cgroupV2DirPath ;;
  match err with
  | Some e => ret (None, Some e)
  | None =>
      defer (Close cgroupDirFD)
        (pr <- deref_prog p ;;
         '(linkC, errno) <- call (bpf_program__attach_cgroup
                                    (BPFProg.prog pr) (C_int cgroupDirFD)) ;;
         if linkC =? 0 then
           name <- Name p ;;
           ret (None, Some (Errorf "failed to attach cgroup on cgroupv2 %s to program %s: %w"
                              [FStr cgroupV2DirPath; FStr name] (cgo_errno errno) true))
         else
           match from1 cgroupV2DirPath with
           | None => go_panic SliceBoundsOutOfRange
           | Some rest =>
               let dirName := ReplaceAll rest "/"%char "-" in
               name <- Name p ;;
               bpfLink <- new_BPFLink
                 (BPFLink.mk linkC p Cgroup ("cgroup-" +:+ name +:+ "-" +:+ dirName) None) ;;
               _ <- append_link p bpfLink ;;
               ret (Some bpfLink, None)
           end)
  end.

Definition AttachCgroupLegacy (p : nat) (cgroupV2DirPath : string) (attachType : Z)
  : go W (option nat * option error) :=
  '(bpfLink, err) <- AttachCgroup p cgroupV2DirPath ;;
  match err with
  | None => ret (bpfLink, None)
  | Some _ =>
      '(cgroupDirFD, err) <- getCgroupDirFD cgroupV2DirPath ;;
      match err with
      | Some e => ret (None, Some e)
      | None =>
          defer (Close cgroupDirFD)
            (fd <- FileDescriptor p ;;
             '(retC, errno) <- call (cgo_bpf_prog_attach_cgroup_legacy
                                       (C_int fd) (C_int cgroupDirFD) (C_int attachType)) ;;
             if retC <? 0 then
               name <- Name p ;;
               ret (None, Some (Errorf "failed to attach (legacy) program %s to cgroupv2 %s: %w"
                                  [FStr name; FStr cgroupV2DirPath] (cgo_errno errno) true))
             else
               match from1 cgroupV2DirPath with
               | None => go_panic SliceBoundsOutOfRange
               | Some rest =>
                   let dirName := ReplaceAll rest "/"%char "-" in
                   let bpfLinkLegacy := bpfLinkLegacy.mk attachType cgroupV2DirPath in
                   name <- Name p ;;
                   fakeBpfLink <- new_BPFLink
                     (BPFLink.mk 0 p CgroupLegacy ("cgroup-" +:+ name +:+ "-" +:+ dirName)
                        (Some bpfLinkLegacy)) ;;
                   ret (Some fakeBpfLink, None)
               end)
      end
  end.

Definition DetachCgroupLegacy (p : nat) (cgroupV2DirPath : string) (attachType : Z)
  : go W (option error) :=
  '(cgroupDirFD, err) <- getCgroupDirFD cgroupV2DirPath ;;
  match err with
  | Some e => ret (Some e)
  | None =>
      defer (Close cgroupDirFD)
        (fd <- FileDescriptor p ;;
         '(retC, errno) <- call (cgo_bpf_prog_detach_cgroup_legacy
                                   (C_int fd) (C_int cgroupDirFD) (C_int attachType)) ;;
         if retC <? 0 then
           name <- Name p ;;
           ret (Some (Errorf "failed to detach (legacy) program %s from cgroupv2 %s: %w"
                        [FStr name; FStr cgroupV2DirPath] (cgo_errno errno) true))
         else ret None)
  end.

(** [iface.Index] on the [*net.Interface] that [net.InterfaceByName] gave. *)
Definition iface_Index (iface : option Z) : go W Z :=
  match iface with
  | Some index => ret index
  | None => go_panic NilDereference
  end.

Definition AttachXDP (p : nat) (deviceName : string) : go W (option nat * option error) :=
  '(iface, err) <- InterfaceByName deviceName ;;
  match err with
  | Some e =>
      ret (None, Some (Errorf "failed to find device by name %s: %w"
                         [FStr deviceName] (Some e) true))
  | None =>
      pr <- deref_prog p ;;
      index <- iface_Index iface ;;
      '(linkC, errno) <- call (bpf_program__attach_xdp (BPFProg.prog pr) (C_int index)) ;;
      if linkC =? 0 then
        name <- Name p ;;
        ret (None, Some (Errorf "failed to attach xdp on device %s to program %s: %w"
                           [FStr deviceName; FStr name] (cgo_errno errno) true))
      else
        name <- Name p ;;
        bpfLink <- new_BPFLink
          (BPFLink.mk linkC p XDP ("xdp-" +:+ name +:+ "-" +:+ deviceName) None) ;;
        _ <- append_link p bpfLink ;;
        ret (Some bpfLink, None)
  end.

Definition AttachXDPLegacy (p : nat) (deviceName : string) (flag : Z) : go W (option error) :=
  '(optsC, errno) <- call (cgo_bpf_xdp_attach_opts_new (C_uint 0)) ;;
  if optsC =? 0 then
    ret (Some (Errorf "failed to create xdp attach opts:%w" [] (cgo_errno errno) true))
  else
    defer (call_ (cgo_bpf_xdp_attach_opts_free optsC))
      ('(iface, err) <- InterfaceByName deviceName ;;
       match err with
       | Some e =>
           ret (Some (Errorf "failed to find device by name %s: %w"
                        [FStr deviceName] (Some e) true))
       | None =>
           index <- iface_Index iface ;;
           fd <- FileDescriptor p ;;
           '(retC, errno) <- call (bpf_xdp_attach (C_int index) (C_int fd) (C_uint flag) optsC) ;;
           if retC <? 0 then
             ret (Some (Errorf "failed to attach xdp: %w" [] (cgo_errno errno) true))
           else ret None
       end).

Definition DetachXDPLegacy (p : nat) (deviceName : string) (flag : Z) : go W (option error) :=
  fd <- FileDescriptor p ;;
  '(optsC, errno) <- call (cgo_bpf_xdp_attach_opts_new (C_uint fd)) ;;
  if optsC =? 0 then
    ret (Some (Errorf "failed to create xdp attach opts:%w" [] (cgo_errno errno) true))
  else
    defer (call_ (cgo_bpf_xdp_attach_opts_free optsC))
      ('(iface, err) <- InterfaceByName deviceName ;;
       match err with
       | Some e =>
           ret (Some (Errorf "failed to find device by name %s: %w"
                        [FStr deviceName] (Some e) true))
       | None =>
           index <- iface_Index iface ;;
           '(retC, errno) <- call (bpf_xdp_detach (C_int index) (C_uint flag) optsC) ;;
           if retC <? 0 then
             ret (Some (Errorf "failed to detach xdp: %w" [] (cgo_errno errno) true))
           else ret None
       end).

Definition AttachTracepoint (p : nat) (category name : string)
  : go W (option nat * option error) :=
  pr <- deref_prog p ;;
  '(linkC, errno) <- call (bpf_program__attach_tracepoint (BPFProg.prog pr) category name) ;;
  if linkC =? 0 then
    pname <- Name p ;;
    ret (None, Some (Errorf "failed to attach tracepoint %s to program %s: %w"
                       [FStr name; FStr pname] (cgo_errno errno) true))
  else
    bpfLink <- new_BPFLink (BPFLink.mk linkC p Tracepoint name None) ;;
    _ <- append_link p bpfLink ;;
    ret (Some bpfLink, None).

Definition AttachRawTracepoint (p : nat) (tpEvent : string)
  : go W (option nat * option error) :=
  pr <- deref_prog p ;;
  '(linkC, errno) <- call (bpf_program__attach_raw_tracepoint (BPFProg.prog pr) tpEvent) ;;
  if linkC =? 0 then
    name <- Name p ;;
    ret (None, Some (Errorf "failed to attach raw tracepoint %s to program %s: %w"
                       [FStr tpEvent; FStr name] (cgo_errno errno) true))
  else
    bpfLink <- new_BPFLink (BPFLink.mk linkC p RawTracepoint tpEvent None) ;;
    _ <- append_link p bpfLink ;;
    ret (Some bpfLink, None).

(** The literal names no [eventName]: the field keeps Go's zero value, the
    empty string. *)
Definition AttachLSM (p : nat) : go W (option nat * option error) :=
  pr <- deref_prog p ;;
  '(linkC, errno) <- call (bpf_program__attach_lsm (BPFProg.prog pr)) ;;
  if linkC =? 0 then
    name <- Name p ;;
    ret (None, Some (Errorf "failed to attach lsm to program %s: %w"
                       [FStr name] (cgo_errno errno) true))
  else
    bpfLink <- new_BPFLink (BPFLink.mk linkC p LSM "" None) ;;
    _ <- append_link p bpfLink ;;
    ret (Some bpfLink, None).

Definition AttachPerfEvent (p : nat) (fd : Z) : go W (option nat * option error) :=
  pr <- deref_prog p ;;
  '(linkC, errno) <- call (bpf_program__attach_perf_event (BPFProg.prog pr) (C_int fd)) ;;
  if linkC =? 0 then
    name <- Name p ;;
    ret (None, Some (Errorf "failed to attach perf event to program %s: %w"
                       [FStr name] (cgo_errno errno) true))
  else
    bpfLink <- new_BPFLink (BPFLink.mk linkC p PerfEvent "" None) ;;
    _ <- append_link p bpfLink ;;
    ret (Some bpfLink, None).

Definition attachKprobeCommon (p : nat) (a : attachTo) : go W (option nat * option error) :=
  '(optsC, errno) <- call (cgo_bpf_kprobe_opts_new 0 (wrap_unsigned 64 (symAddr a)) (isRet a) 0) ;;
  if optsC =? 0 then
    ret (None, Some (Errorf "failed to create kprobe_opts of %v: %v"
                       [FAttachTo a] (cgo_errno errno) false))
  else
    defer (call_ (cgo_bpf_kprobe_opts_free optsC))
      (pr <- deref_prog p ;;
       '(linkC, errno) <- call (bpf_program__attach_kprobe_opts
                                  (BPFProg.prog pr) (symName a) optsC) ;;
       if linkC =? 0 then
         ret (None, Some (Errorf "failed to attach to %v: %v"
                            [FAttachTo a] (cgo_errno errno) false))
       else
         let linkType := if isRet a then Kretprobe else Kprobe in
         let eventName :=
           if String.eqb (symName a) "" then fmt_d (symAddr a) else symName a in
         bpfLink <- new_BPFLink (BPFLink.mk linkC p linkType eventName None) ;;
         _ <- append_link p bpfLink ;;
         ret (Some bpfLink, None)).

Definition AttachKprobe (p : nat) (symbol : string) : go W (option nat * option error) :=
  attachKprobeCommon p {| symName := symbol; symAddr := 0; isRet := false |}.

Definition AttachKretprobe (p : nat) (symbol : string) : go W (option nat * option error) :=
  attachKprobeCommon p {| symName := symbol; symAddr := 0; isRet := true |}.

Definition AttachKprobeOffset (p : nat) (offset : Z) : go W (option nat * option error) :=
  attachKprobeCommon p {| symName := ""; symAddr := offset; isRet := false |}.

Definition AttachKretprobeOnOffset (p : nat) (offset : Z) : go W (option nat * option error) :=
  attachKprobeCommon p {| symName := ""; symAddr := offset; isRet := true |}.

Definition AttachNetns (p : nat) (networkNamespacePath : string)
  : go W (option nat * option error) :=
  '(fd, err) <- Open networkNamespacePath O_RDONLY 0 ;;
  if fd <? 0 then
    ret (None, Some (Errorf "failed to open network namespace path %s: %w"
                       [FStr networkNamespacePath] err true))
  else
    pr <- deref_prog p ;;
    '(linkC, errno) <- call (bpf_program__attach_netns (BPFProg.prog pr) (C_int fd)) ;;
    if linkC =? 0 then
      name <- Name p ;;
      ret (None, Some (Errorf "failed to attach network namespace on %s to program %s: %w"
                         [FStr networkNamespacePath; FStr name] (cgo_errno errno) true))
    else
      match from1 networkNamespacePath with
      | None => go_panic SliceBoundsOutOfRange
      | Some rest =>
          let fileName := ReplaceAll rest "/"%char "-" in
          name <- Name p ;;
          bpfLink <- new_BPFLink
            (BPFLink.mk linkC p Netns ("netns-" +:+ name +:+ "-" +:+ fileName) None) ;;
          _ <- append_link p bpfLink ;;
          ret (Some bpfLink, None)
      end.

Definition AttachIter (p : nat) (opts : IterOpts) : go W (option nat * option error) :=
  '(optsC, errno) <- call (cgo_bpf_iter_attach_opts_new
                             (C_uint (MapFd opts)) (C_uint (CgroupIterOrder opts))
                             (C_uint (CgroupFd opts)) (wrap_unsigned 64 (CgroupId opts))
                             (C_uint (Tid opts)) (C_uint (Pid opts)) (C_uint (PidFd opts))) ;;
  if optsC =? 0 then
    name <- Name p ;;
    ret (None, Some (Errorf "failed to create iter_attach_opts to program %s: %w"
                       [FStr name] (cgo_errno errno) true))
  else
    defer (call_ (cgo_bpf_iter_attach_opts_free optsC))
      (pr <- deref_prog p ;;
       '(linkC, errno) <- call (bpf_program__attach_iter (BPFProg.prog pr) optsC) ;;
       if linkC =? 0 then
         name <- Name p ;;
         ret (None, Some (Errorf "failed to attach iter to program %s: %w"
                            [FStr name] (cgo_errno errno) true))
       else
         name <- Name p ;;
         bpfLink <- new_BPFLink
           (BPFLink.mk linkC p Iter ("iter-" +:+ name +:+ "-" +:+ fmt_d (MapFd opts)) None) ;;
         _ <- append_link p bpfLink ;;
         ret (Some bpfLink, None)).

Definition doAttachUprobe (prog : nat) (isUretprobe : bool) (pid : Z) (path : string)
  (offset : Z) : go W (option nat * option error) :=
  pr <- deref_prog prog ;;
  '(linkC, errno) <- call (bpf_program__attach_uprobe (BPFProg.prog pr) isUretprobe
                             (C_int pid) path (wrap_unsigned 64 offset)) ;;
  if linkC =? 0 then
    ret (None, Some (Errorf "failed to attach u(ret)probe to program %s:%d with pid %d: %w "
                       [FStr path; FInt offset; FInt pid] (cgo_errno errno) true))
  else
    let upType := if isUretprobe then Uretprobe else Uprobe in
    bpfLink <- new_BPFLink
      (BPFLink.mk linkC prog upType (path +:+ ":" +:+ fmt_d pid +:+ ":" +:+ fmt_d offset) None) ;;
    ret (Some bpfLink, None).

Definition doAttachUprobeMulti (prog : nat) (isUretprobe : bool) (pid : Z) (path : string)
  (offsets cookies : list Z) : go W (option nat * option error) :=
  let offsetsC := if 0 <? Z.of_nat (length offsets) then offsets else [] in
  let cookiesC := if 0 <? Z.of_nat (length cookies) then cookies else [] in
  pr <- deref_prog prog ;;
  '(linkC, errno) <- call (cgo_bpf_program__attach_uprobe_multi (BPFProg.prog pr)
                             (C_int pid) path offsetsC cookiesC
                             (Z.of_nat (length offsets)) isUretprobe) ;;
  if linkC =? 0 then
    ret (None, Some (Errorf "failed to attach u(ret)probe multi to program %s:%v with pid %d: %w "
                       [FStr path; FInts offsets; FInt pid] (cgo_errno errno) true))
  else
    let upType := if isUretprobe then Uretprobe else Uprobe in
    bpfLink <- new_BPFLink
      (BPFLink.mk linkC prog upType
         (path +:+ ":" +:+ fmt_d pid +:+ ":" +:+ fmt_v_uints offsets) None) ;;
    ret (Some bpfLink, None).

Definition AttachUprobe (p : nat) (pid : Z) (path : string) (offset : Z)
  : go W (option nat * option error) :=
  '(absPath, err) <- Abs path ;;
  match err with
  | Some e => ret (None, Some e)
  | None => doAttachUprobe p false pid absPath offset
  end.

Definition AttachURetprobe (p : nat) (pid : Z) (path : string) (offset : Z)
  : go W (option nat * option error) :=
  '(absPath, err) <- Abs path ;;
  match err with
  | Some e => ret (None, Some e)
  | None => doAttachUprobe p true pid absPath offset
  end.

Definition AttachUprobeMulti (p : nat) (pid : Z) (path : string) (offsets cookies : list Z)
  : go W (option nat * option error) :=
  '(absPath, err) <- Abs path ;;
  match err with
  | Some e => ret (None, Some e)
  | None => doAttachUprobeMulti p false pid absPath offsets cookies
  end.

Definition AttachURetprobeMulti (p : nat) (pid : Z) (path : string) (offsets cookies : list Z)
  : go W (option nat * option error) :=
  '(absPath, err) <- Abs path ;;
  match err with
  | Some e => ret (None, Some e)
  | None => doAttachUprobeMulti p true pid absPath offsets cookies
  end.

Definition AttachGenericFD (p : nat) (targetFd attachType flags : Z) : go W (option error) :=
  fd <- FileDescriptor p ;;
  '(retC, _) <- call (bpf_prog_attach (C_int fd) (C_int targetFd)
                        (C_uint (go_int attachType)) (C_uint (wrap_unsigned 64 flags))) ;;
  if retC <? 0 then
    ret (Some (Errorf "failed to attach: %w" [] (Some (Errno_of_ret retC)) true))
  else ret None.

Definition DetachGenericFD (p : nat) (targetFd attachType : Z) : go W (option error) :=
  fd <- FileDescriptor p ;;
  '(retC, _) <- call (bpf_prog_detach2 (C_int fd) (C_int targetFd)
                        (C_uint (go_int attachType))) ;;
  if retC <? 0 then
    ret (Some (Errorf "failed to detach: %w" [] (Some (Errno_of_ret retC)) true))
  else ret None.

Definition AttachUSDT (p : nat) (pid : Z) (binaryPath provider name : string)
  : go W (option nat * option error) :=
  pr <- deref_prog p ;;
  '(linkC, errno) <- call (bpf_program__attach_usdt (BPFProg.prog pr) (C_int pid)
                             binaryPath provider name) ;;
  if linkC =? 0 then
    ret (None, Some (Errorf "failed to attach USDT probe to marker %s:%s in program %s with pid %d: %w"
                       [FStr provider; FStr name; FStr binaryPath; FInt pid]
                       (cgo_errno errno) true))
  else
    bpfLink <- new_BPFLink
      (BPFLink.mk linkC p USDT
         (binaryPath +:+ ":" +:+ fmt_d pid +:+ ":" +:+ provider +:+ ":" +:+ name) None) ;;
    ret (Some bpfLink, None).

(** [unsafe.Pointer(&s[0])] on a slice that is not nil: indexing element 0
    of an empty slice panics. *)
Definition addr_of_elem0 (s : bytes) : go W Z :=
  match elems s with
  | [] => go_panic IndexOutOfRange
  | _ :: _ => ret (base s)
  end.

(** One of the four [if runOpts.X != nil { x = &runOpts.X[0]; xSize = ... }]
    of [runOptsToC]; the variables start at their zero values. *)
Definition marshal_buffer (buf : option bytes) (size : Z) : go W (Z * Z) :=
  match buf with
  | None => ret (0, 0)
  | Some s => ptr <- addr_of_elem0 s ;; ret (ptr, C_uint size)
  end.

Definition runOptsToC (runOpts : option RunOpts) : go W (Z * option error) :=
  match runOpts with
  | None => ret (0, None)
  | Some ro =>
      '(dataIn, dataSizeIn) <- marshal_buffer (DataIn ro) (DataSizeIn ro) ;;
      '(dataOut, dataSizeOut) <- marshal_buffer (DataOut ro) (DataSizeOut ro) ;;
      '(ctxIn, ctxSizeIn) <- marshal_buffer (CtxIn ro) (CtxSizeIn ro) ;;
      '(ctxOut, ctxSizeOut) <- marshal_buffer (CtxOut ro) (CtxSizeOut ro) ;;
      '(optsC, errno) <- call (cgo_bpf_test_run_opts_new
                                 dataIn dataOut dataSizeIn dataSizeOut
                                 ctxIn ctxOut ctxSizeIn ctxSizeOut
                                 (C_int (Repeat ro)) (C_uint (Flags ro))
                                 (C_uint (CPU ro)) (C_uint (BatchSize ro))) ;;
      if optsC =? 0 then
        ret (0, Some (Errorf "failed to create bpf_test_run_opts: %w" []
                        (cgo_errno errno) true))
      else ret (optsC, None)
  end.

(** One of the four [if optsC.x != nil { runOpts.X = C.GoBytes(optsC.x,
    C.int(optsC.x_size)) }] of [runOptsFromC]. *)
Definition unmarshal_buffer (old : option bytes) (ptr size : Z) : go W (option bytes) :=
  if ptr =? 0 then ret old
  else b <- C_GoBytes ptr (C_int size) ;; ret (Some b).

(** [time.Nanosecond]. *)
Definition Nanosecond : Z := 1.

(** [runOptsFromC] writes through [runOpts]; the structure it leaves is the
    result.  Its caller passes a nil [runOpts] only with a nil [optsC]. *)
Definition runOptsFromC (runOpts : option RunOpts) (optsC : Z) : go W (option RunOpts) :=
  if optsC =? 0 then ret runOpts
  else
    match runOpts with
    | None => go_panic NilDereference
    | Some ro =>
        c <- (λ st, (Returns (test_run_opts_at optsC (world st)), st)) ;;
        dataIn <- unmarshal_buffer (DataIn ro) (data_in c) (data_size_in c) ;;
        dataOut <- unmarshal_buffer (DataOut ro) (data_out c) (data_size_out c) ;;
        ctxIn <- unmarshal_buffer (CtxIn ro) (ctx_in c) (ctx_size_in c) ;;
        ctxOut <- unmarshal_buffer (CtxOut ro) (ctx_out c) (ctx_size_out c) ;;
        ret (Some {| DataIn := dataIn;
                     DataOut := dataOut;
                     DataSizeIn := DataSizeIn ro;
                     DataSizeOut := DataSizeOut ro;
                     CtxIn := ctxIn;
                     CtxOut := ctxOut;
                     CtxSizeIn := CtxSizeIn ro;
                     CtxSizeOut := CtxSizeOut ro;
                     RetVal := C_uint (retval c);
                     Repeat := go_int (repeat_ c);
                     Duration := wrap_signed 64 (wrap_signed 64 (duration c) * Nanosecond);
                     Flags := C_uint (flags c);
                     CPU := C_uint (cpu c);
                     BatchSize := C_uint (batch_size c) |})
    end.

(** [Run] returns its error together with the [RunOpts] structure the
    caller's pointer designates when it leaves. *)
Definition Run (p : nat) (opts : option RunOpts) : go W (option RunOpts * option error) :=
  '(optsC, err) <- runOptsToC opts ;;
  match err with
  | Some e => ret (opts, Some e)
  | None =>
      defer (call_ (cgo_bpf_test_run_opts_free optsC))
        (fd <- FileDescriptor p ;;
         '(retC, _) <- call (bpf_prog_test_run_opts (C_int fd) optsC) ;;
         if retC <? 0 then
           ret (opts, Some (Errorf "failed to run program: %w" []
                              (Some (Errno_of_ret retC)) true))
         else
           opts' <- runOptsFromC opts optsC ;;
           ret (opts', None))
  end.
End Prog.

(** ** The operations, by family *)

(** The operations that return only an [error] and whose native call returns
    an integer code. *)
Inductive code_op :=
| OpPin (path : string)
| OpUnpin (path : string)
| OpSetAutoload (autoload : bool)
| OpSetAttachTarget (attachProgFD : Z) (attachFuncName : string)
| OpSetType (progType : Z)
| OpSetExpectedAttachType (attachType : Z)
| OpAttachGenericFD (targetFd attachType flags : Z)
| OpDetachGenericFD (targetFd attachType : Z)
| OpDetachCgroupLegacy (cgroupV2DirPath : string) (attachType : Z)
| OpAttachXDPLegacy (deviceName : string) (flag : Z)
| OpDetachXDPLegacy (deviceName : string) (flag : Z)
| OpRun (opts : option RunOpts).

(** The operations that return a [*BPFLink]. *)
Inductive attach_op :=
| OpAttachGeneric
| OpAttachCgroup (cgroupV2DirPath : string)
| OpAttachCgroupLegacy (cgroupV2DirPath : string) (attachType : Z)
| OpAttachXDP (deviceName : string)
| OpAttachTracepoint (category name : string)
| OpAttachRawTracepoint (tpEvent : string)
| OpAttachLSM
| OpAttachPerfEvent (fd : Z)
| OpAttachKprobe (symbol : string)
| OpAttachKretprobe (symbol : string)
| OpAttachKprobeOffset (offset : Z)
| OpAttachKretprobeOnOffset (offset : Z)
| OpAttachNetns (networkNamespacePath : string)
| OpAttachIter (opts : IterOpts)
| OpAttachUprobe (pid : Z) (path : string) (offset : Z)
| OpAttachURetprobe (pid : Z) (path : string) (offset : Z)
| OpAttachUprobeMulti (pid : Z) (path : string) (offsets cookies : list Z)
| OpAttachURetprobeMulti (pid : Z) (path : string) (offsets cookies : list Z)
| OpAttachUSDT (pid : Z) (binaryPath provider name : string).

Section Families.
Context {W : Type} `{!Native W}.

Definition exec_code (op : code_op) (p : nat) : go W (option error) :=
  match op with
  | OpPin path => Pin p path
  | OpUnpin path => Unpin p path
  | OpSetAutoload autoload => SetAutoload p autoload
  | OpSetAttachTarget fd name => SetAttachTarget p fd name
  | OpSetType t => SetType p t
  | OpSetExpectedAttachType t => SetExpectedAttachType p t
  | OpAttachGenericFD targetFd t flags => AttachGenericFD p targetFd t flags
  | OpDetachGenericFD targetFd t => DetachGenericFD p targetFd t
  | OpDetachCgroupLegacy path t => DetachCgroupLegacy p path t
  | OpAttachXDPLegacy dev flag => AttachXDPLegacy p dev flag
  | OpDetachXDPLegacy dev flag => DetachXDPLegacy p dev flag
  | OpRun opts => '(_, err) <- Run p opts ;; ret err
  end.

Definition exec_attach (op : attach_op) (p : nat) : go W (option nat * option error) :=
  match op with
  | OpAttachGeneric => AttachGeneric p
  | OpAttachCgroup path => AttachCgroup p path
  | OpAttachCgroupLegacy path t => AttachCgroupLegacy p path t
  | OpAttachXDP dev => AttachXDP p dev
  | OpAttachTracepoint category name => AttachTracepoint p category name
  | OpAttachRawTracepoint tpEvent => AttachRawTracepoint p tpEvent
  | OpAttachLSM => AttachLSM p
  | OpAttachPerfEvent fd => AttachPerfEvent p fd
  | OpAttachKprobe symbol => AttachKprobe p symbol
  | OpAttachKretprobe symbol => AttachKretprobe p symbol
  | OpAttachKprobeOffset offset => AttachKprobeOffset p offset
  | OpAttachKretprobeOnOffset offset => AttachKretprobeOnOffset p offset
  | OpAttachNetns path => AttachNetns p path
  | OpAttachIter opts => AttachIter p opts
  | OpAttachUprobe pid path offset => AttachUprobe p pid path offset
  | OpAttachURetprobe pid path offset => AttachURetprobe p pid path offset
  | OpAttachUprobeMulti pid path offsets cookies =>
      AttachUprobeMulti p pid path offsets cookies
  | OpAttachURetprobeMulti pid path offsets cookies =>
      AttachURetprobeMulti p pid path offsets cookies
  | OpAttachUSDT pid binaryPath provider name => AttachUSDT p pid binaryPath provider name
  end.
End Families.

(** The native call of a [code_op] whose integer result decides the error. *)
Definition code_call (op : code_op) (c : ccall) : bool :=
  match op, c with
  | OpPin _, bpf_program__pin _ _
  | OpUnpin _, bpf_program__unpin _ _
  | OpSetAutoload _, bpf_program__set_autoload _ _
  | OpSetAttachTarget _ _, bpf_program__set_attach_target _ _ _
  | OpSetType _, bpf_program__set_type _ _
  | OpSetExpectedAttachType _, bpf_program__set_expected_attach_type _ _
  | OpAttachGenericFD _ _ _, bpf_prog_attach _ _ _ _
  | OpDetachGenericFD _ _, bpf_prog_detach2 _ _ _
  | OpDetachCgroupLegacy _ _, cgo_bpf_prog_detach_cgroup_legacy _ _ _
  | OpAttachXDPLegacy _ _, bpf_xdp_attach _ _ _ _
  | OpDetachXDPLegacy _ _, bpf_xdp_detach _ _ _
  | OpRun _, bpf_prog_test_run_opts _ _ => true
  | _, _ => false
  end.

(** The three operations that wrap the [errno] of cgo's two-result call form
    instead of [syscall.Errno(-retC)]. *)
Definition wraps_errno (op : code_op) : bool :=
  match op with
  | OpDetachCgroupLegacy _ _ | OpAttachXDPLegacy _ _ | OpDetachXDPLegacy _ _ => true
  | _ => false
  end.

(** The native calls that attach a program to a hook, and whether such a
    call came back failed: NULL for those that return a link, a negative
    code for those that return an integer. *)
Definition attach_call (c : ccall) : bool :=
  match c with
  | bpf_program__attach _
  | bpf_program__attach_cgroup _ _
  | cgo_bpf_prog_attach_cgroup_legacy _ _ _
  | bpf_program__attach_xdp _ _
  | bpf_xdp_attach _ _ _ _
  | bpf_program__attach_tracepoint _ _ _
  | bpf_program__attach_raw_tracepoint _ _
  | bpf_program__attach_lsm _
  | bpf_program__attach_perf_event _ _
  | bpf_program__attach_kprobe_opts _ _ _
  | bpf_program__attach_netns _ _
  | bpf_program__attach_iter _ _
  | bpf_program__attach_uprobe _ _ _ _ _
  | cgo_bpf_program__attach_uprobe_multi _ _ _ _ _ _ _
  | bpf_prog_attach _ _ _ _
  | bpf_program__attach_usdt _ _ _ _ _ => true
  | _ => false
  end.

Definition attach_failed (c : ccall) (r : Z) : bool :=
  match c with
  | cgo_bpf_prog_attach_cgroup_legacy _ _ _
  | bpf_xdp_attach _ _ _ _
  | bpf_prog_attach _ _ _ _ => r <? 0
  | _ => r =? 0
  end.

Definition attach_event (ev : event) : bool :=
  match ev with
  | EvC c _ _ => attach_call c
  | _ => false
  end.

(** ** A scripted world

    A world with no state of its own whose answers depend on the arguments
    only; the concrete runs below take place in it.  Program 1 has C handle
    100, file descriptor 7 and name "sched"; its module is module 1. *)

Definition demo_cgo (c : ccall) : Z * Z :=
  match c with
  | bpf_program__fd _ => (7, 0)
  | bpf_program__name _ => (500, 0)
  | bpf_program__pin _ path =>
      if String.eqb path "/sys/fs/bpf/denied" then (-13, 13) else (0, 0)
  | bpf_program__unpin _ path =>
      if String.eqb path "/sys/fs/bpf/gone" then (-2, 2) else (0, 0)
  | bpf_program__attach _ => (901, 0)
  | bpf_program__attach_cgroup _ fd => if fd =? 5 then (0, 22) else (902, 0)
  | cgo_bpf_prog_attach_cgroup_legacy _ _ attachType =>
      if attachType =? 9 then (-1, 22) else (0, 0)
  | cgo_bpf_prog_detach_cgroup_legacy _ _ _ => (-1, 22)
  | bpf_program__attach_lsm _ => (903, 0)
  | bpf_program__attach_perf_event _ _ => (904, 0)
  | cgo_bpf_kprobe_opts_new _ _ _ _ => (800, 0)
  | bpf_program__attach_kprobe_opts _ _ _ => (905, 0)
  | bpf_program__attach_uprobe _ _ _ _ _ => (906, 0)
  | bpf_program__attach_tracepoint _ _ _ => (0, 2)
  | cgo_bpf_test_run_opts_new _ _ _ _ _ _ _ _ _ _ _ _ => (700, 0)
  | bpf_prog_test_run_opts _ _ => (0, 0)
  | bpf_prog_attach _ _ _ _ => (- 2 ^ 31, 0)
  | _ => (0, 0)
  end.

Definition demo_Abs (path : string) : string * option error :=
  match path with
  | String "/" _ => (path, None)
  | _ => ("/work/" +:+ path, None)
  end.

Definition demo_Open (path : string) : Z * option error :=
  if String.eqb path "" then (-1, Some (Errno 2))
  else if String.eqb path "/sys/fs/cgroup/old" then (5, None)
  else (4, None).

Definition demo_InterfaceByName (name : string) : option Z * option error :=
  if String.eqb name "eth0" then (Some 2, None)
  else (None, Some (LibError "route ip+net: no such network interface")).

(** The [bpf_test_run_opts] structure after a test run: the kernel wrote 4
    bytes of output and the return value 1. *)
Definition demo_test_run_opts : bpf_test_run_opts :=
  {| data_in := 0x1000; data_out := 0x2000; data_size_in := 14; data_size_out := 4;
     ctx_in := 0; ctx_out := 0; ctx_size_in := 0; ctx_size_out := 0;
     retval := 1; repeat_ := 1; duration := 250; flags := 0; cpu := 0; batch_size := 0 |}.

#[local] Instance demo : Native unit := {|
  cgo c w := (demo_cgo c, w);
  GoString ptr w := if ptr =? 500 then "sched" else "";
  byte_at a w := a mod 256;
  GoBytes_base ptr n w := 0x8000 + ptr;
  test_run_opts_at ptr w := demo_test_run_opts;
  filepath_Abs path w := (demo_Abs path, w);
  syscall_Open path mode perm w := (demo_Open path, w);
  syscall_Close fd w := w;
  net_InterfaceByName name w := (demo_InterfaceByName name, w);
|}.

Definition demo_state : State unit :=
  mkState tt [] {[ 1%nat := BPFProg.mk 100 1 "" ]} {[ 1%nat := Module.mk [] ]} [].

(** The caller's structure of the example in the comment of [Run], with
    buffers that hold their 14 bytes. *)
Definition demo_RunOpts : RunOpts :=
  {| DataIn := Some {| base := 0x1000; elems := replicate 14 0 |};
     DataOut := Some {| base := 0x2000; elems := replicate 14 0 |};
     DataSizeIn := 14; DataSizeOut := 14;
     CtxIn := None; CtxOut := None; CtxSizeIn := 0; CtxSizeOut := 0;
     RetVal := 0; Repeat := 1; Duration := 0; Flags := 0; CPU := 0; BatchSize := 0 |}.

(** ** Vocabulary of the statements *)

Section Vocabulary.
Context {W : Type} `{!Native W}.

(** A computation that leaves the Go heap as it found it: no program or
    module is written, no link allocated. *)
Definition keeps_heap {A} (m : go W A) : Prop :=
  ∀ st, progs (m st).2 = progs st
        ∧ modules (m st).2 = modules st
        ∧ linkheap (m st).2 = linkheap st.

(** [ro1] is [ro] after [runOptsFromC] read the structure [c] in the world
    [w]: a buffer whose pointer in [c] is not nil is the copy of the bytes
    at that pointer, to the length the structure gives, and any other
    buffer is as in [ro]; the six scalar fields are those of [c]; the four
    size fields are as in [ro]. *)
Definition filled_from (ro : RunOpts) (c : bpf_test_run_opts) (w : W) (ro1 : RunOpts) : Prop :=
  let copied old ptr size :=
    if ptr =? 0 then old else Some (bytes_at ptr (C_int size) w) in
  DataIn ro1 = copied (DataIn ro) (data_in c) (data_size_in c)
  ∧ DataOut ro1 = copied (DataOut ro) (data_out c) (data_size_out c)
  ∧ CtxIn ro1 = copied (CtxIn ro) (ctx_in c) (ctx_size_in c)
  ∧ CtxOut ro1 = copied (CtxOut ro) (ctx_out c) (ctx_size_out c)
  ∧ RetVal ro1 = C_uint (retval c)
  ∧ Repeat ro1 = go_int (repeat_ c)
  ∧ Duration ro1 = wrap_signed 64 (wrap_signed 64 (duration c) * Nanosecond)
  ∧ Flags ro1 = C_uint (flags c)
  ∧ CPU ro1 = C_uint (cpu c)
  ∧ BatchSize ro1 = C_uint (batch_size c)
  ∧ DataSizeIn ro1 = DataSizeIn ro
  ∧ DataSizeOut ro1 = DataSizeOut ro
  ∧ CtxSizeIn ro1 = CtxSizeIn ro
  ∧ CtxSizeOut ro1 = CtxSizeOut ro.
End Vocabulary.

(** A buffer of [RunOpts] whose element 0 can be indexed: nil (it is not
    indexed at all) or of length at least 1. *)
Definition indexable (buf : option bytes) : bool :=
  match buf with
  | None => true
  | Some s => (1 <=? length (elems s))%nat
  end.

Definition buffers_indexable (ro : RunOpts) : bool :=
  indexable (DataIn ro) && indexable (DataOut ro)
  && indexable (CtxIn ro) && indexable (CtxOut ro).

(** The call that allocates the native [bpf_test_run_opts]. *)
Definition opts_new_event (ev : event) : Prop :=
  match ev with
  | EvC (cgo_bpf_test_run_opts_new _ _ _ _ _ _ _ _ _ _ _ _) _ _ => True
  | _ => False
  end.

(** Whether the link [lk] that [op] returned is appended to the module's
    [links]: the operations that end in [p.module.links = append(...)].
    [AttachCgroupLegacy] returns either the link of [AttachCgroup], which
    appended it, or its own legacy link, which it does not append. *)
Definition appends_to_module (op : attach_op) (lk : BPFLink) : bool :=
  match op with
  | OpAttachGeneric
  | OpAttachUprobe _ _ _ | OpAttachURetprobe _ _ _
  | OpAttachUprobeMulti _ _ _ _ | OpAttachURetprobeMulti _ _ _ _
  | OpAttachUSDT _ _ _ _ => false
  | OpAttachCgroupLegacy _ _ =>
      match BPFLink.linkType lk with CgroupLegacy => false | _ => true end
  | _ => true
  end.

(** [strings.ReplaceAll(path[1:], "/", "-")]. *)
Definition dirName (path : string) : string :=
  match from1 path with
  | Some rest => ReplaceAll rest "/"%char "-"
  | None => ""
  end.

Definition tag_of (lk : BPFLink) : BPFLinkType * string * option bpfLinkLegacy :=
  (BPFLink.linkType lk, BPFLink.eventName lk, BPFLink.legacy lk).

(** The legacy attach call, which only the fallback of [AttachCgroupLegacy]
    makes. *)
Definition legacy_attach_event (ev : event) : bool :=
  match ev with
  | EvC (cgo_bpf_prog_attach_cgroup_legacy _ _ _) _ _ => true
  | _ => false
  end.

(** The operations whose link has the program's name in its event name. *)
Definition names_program (op : attach_op) : bool :=
  match op with
  | OpAttachGeneric | OpAttachCgroup _ | OpAttachCgroupLegacy _ _ | OpAttachXDP _
  | OpAttachNetns _ | OpAttachIter _ => true
  | _ => false
  end.

Definition name_event (ev : event) : bool :=
  match ev with
  | EvC (bpf_program__name _) _ _ => true
  | _ => false
  end.

(** The bookkeeping fields of the link a successful [op] returns, where
    [pname] is the program's name as [op] read it and [tr] the events of
    the run: the absolute path of the uprobe family is the one
    [filepath.Abs] answered in the run, and the link of
    [AttachCgroupLegacy] is the legacy one exactly when the run made the
    legacy attach call. *)
Definition tagged (op : attach_op) (pname : string) (tr : list event) (lk : BPFLink) : Prop :=
  match op with
  | OpAttachGeneric => tag_of lk = (Tracing, "tracing-" +:+ pname, None)
  | OpAttachCgroup path =>
      tag_of lk = (Cgroup, "cgroup-" +:+ pname +:+ "-" +:+ dirName path, None)
  | OpAttachCgroupLegacy path t =>
      if existsb legacy_attach_event tr
      then tag_of lk = (CgroupLegacy, "cgroup-" +:+ pname +:+ "-" +:+ dirName path,
                        Some (bpfLinkLegacy.mk t path))
           ∧ BPFLink.link lk = 0
      else tag_of lk = (Cgroup, "cgroup-" +:+ pname +:+ "-" +:+ dirName path, None)
  | OpAttachXDP dev => tag_of lk = (XDP, "xdp-" +:+ pname +:+ "-" +:+ dev, None)
  | OpAttachTracepoint _ name => tag_of lk = (Tracepoint, name, None)
  | OpAttachRawTracepoint tpEvent => tag_of lk = (RawTracepoint, tpEvent, None)
  | OpAttachLSM => tag_of lk = (LSM, "", None)
  | OpAttachPerfEvent _ => tag_of lk = (PerfEvent, "", None)
  | OpAttachKprobe symbol =>
      tag_of lk = (Kprobe, if String.eqb symbol "" then fmt_d 0 else symbol, None)
  | OpAttachKretprobe symbol =>
      tag_of lk = (Kretprobe, if String.eqb symbol "" then fmt_d 0 else symbol, None)
  | OpAttachKprobeOffset offset => tag_of lk = (Kprobe, fmt_d offset, None)
  | OpAttachKretprobeOnOffset offset => tag_of lk = (Kretprobe, fmt_d offset, None)
  | OpAttachNetns path =>
      tag_of lk = (Netns, "netns-" +:+ pname +:+ "-" +:+ dirName path, None)
  | OpAttachIter opts =>
      tag_of lk = (Iter, "iter-" +:+ pname +:+ "-" +:+ fmt_d (MapFd opts), None)
  | OpAttachUprobe pid path offset =>
      ∃ absPath, EvAbs path absPath None ∈ tr
        ∧ tag_of lk = (Uprobe, absPath +:+ ":" +:+ fmt_d pid +:+ ":" +:+ fmt_d offset, None)
  | OpAttachURetprobe pid path offset =>
      ∃ absPath, EvAbs path absPath None ∈ tr
        ∧ tag_of lk = (Uretprobe, absPath +:+ ":" +:+ fmt_d pid +:+ ":" +:+ fmt_d offset, None)
  | OpAttachUprobeMulti pid path offsets _ =>
      ∃ absPath, EvAbs path absPath None ∈ tr
        ∧ tag_of lk = (Uprobe, absPath +:+ ":" +:+ fmt_d pid +:+ ":" +:+ fmt_v_uints offsets,
                       None)
  | OpAttachURetprobeMulti pid path offsets _ =>
      ∃ absPath, EvAbs path absPath None ∈ tr
        ∧ tag_of lk = (Uretprobe, absPath +:+ ":" +:+ fmt_d pid +:+ ":" +:+ fmt_v_uints offsets,
                       None)
  | OpAttachUSDT pid binaryPath provider name =>
      tag_of lk = (USDT, binaryPath +:+ ":" +:+ fmt_d pid +:+ ":" +:+ provider +:+ ":" +:+ name,
                   None)
  end.

Section Names.
Context {W : Type} `{!Native W}.

(** [pname] is the program's name as the run with the events [evs] last
    read it: the last [bpf_program__name] call of the run was made on the
    handle [h], and [pname] is the Go string of the pointer it answered, read
    in the world the call left. *)
Definition name_read (h : Z) (evs : list event) (pname : string) : Prop :=
  ∃ ptr e w0 w,
    last (List.filter name_event evs) = Some (EvC (bpf_program__name h) ptr e)
    ∧ cgo (bpf_program__name h) w0 = (ptr, e, w)
    ∧ pname = GoString ptr w.
End Names.

(** ** The remaining operations and the vocabulary of their statements *)

(** The operations that read the program or only set a flag, and the two
    deprecated setters that drop the error of the setter they call. *)
Inductive query_op :=
| OpFileDescriptor
| OpGetFd
| OpName
| OpGetName
| OpSectionName
| OpGetSectionName
| OpGetModule
| OpPinPath
| OpGetPinPath
| OpGetType
| OpAutoload
| OpAutoattach
| OpSetAutoattach (autoload : bool)
| OpSetProgramType (progType : Z)
| OpSetAttachType (attachType : Z).

(** What a [query_op] returns. *)
Inductive qvalue :=
| QInt (z : Z)
| QString (s : string)
| QBool (b : bool)
| QModule (m : nat)
| QNothing.

Section Queries.
Context {W : Type} `{!Native W}.

Definition exec_query (op : query_op) (p : nat) : go W qvalue :=
  match op with
  | OpFileDescriptor => fd <- FileDescriptor p ;; ret (QInt fd)
  | OpGetFd => fd <- GetFd p ;; ret (QInt fd)
  | OpName => s <- Name p ;; ret (QString s)
  | OpGetName => s <- GetName p ;; ret (QString s)
  | OpSectionName => s <- SectionName p ;; ret (QString s)
  | OpGetSectionName => s <- GetSectionName p ;; ret (QString s)
  | OpGetModule => m <- GetModule p ;; ret (QModule m)
  | OpPinPath => s <- PinPath p ;; ret (QString s)
  | OpGetPinPath => s <- GetPinPath p ;; ret (QString s)
  | OpGetType => t <- GetType p ;; ret (QInt t)
  | OpAutoload => b <- Autoload p ;; ret (QBool b)
  | OpAutoattach => b <- Autoattach p ;; ret (QBool b)
  | OpSetAutoattach autoload => _ <- SetAutoattach p autoload ;; ret QNothing
  | OpSetProgramType progType => _ <- SetProgramType p progType ;; ret QNothing
  | OpSetAttachType attachType => _ <- SetAttachType p attachType ;; ret QNothing
  end.

(** The bookkeeping is consistent: every link a module lists is allocated,
    was created by a program of that module, and is listed once. *)
Definition links_consistent (st : State W) : Prop :=
  ∀ m md, modules st !! m = Some md →
    NoDup (Module.links md)
    ∧ ∀ l, l ∈ Module.links md →
        ∃ lk pr, linkheap st !! l = Some lk
                 ∧ progs st !! BPFLink.prog lk = Some pr
                 ∧ BPFProg.module pr = m.
End Queries.

(** The program handle a C call is made on, for the calls that take one. *)
Definition program_handle (c : ccall) : option Z :=
  match c with
  | bpf_program__fd h
  | bpf_program__pin h _
  | bpf_program__unpin h _
  | bpf_program__name h
  | bpf_program__section_name h
  | bpf_program__type h
  | bpf_program__set_autoload h _
  | bpf_program__autoload h
  | bpf_program__set_autoattach h _
  | bpf_program__autoattach h
  | bpf_program__attach h
  | bpf_program__set_attach_target h _ _
  | bpf_program__set_type h _
  | bpf_program__set_expected_attach_type h _
  | bpf_program__attach_cgroup h _
  | bpf_program__attach_xdp h _
  | bpf_program__attach_tracepoint h _ _
  | bpf_program__attach_raw_tracepoint h _
  | bpf_program__attach_lsm h
  | bpf_program__attach_perf_event h _
  | bpf_program__attach_kprobe_opts h _ _
  | bpf_program__attach_netns h _
  | bpf_program__attach_iter h _
  | bpf_program__attach_uprobe h _ _ _ _
  | cgo_bpf_program__attach_uprobe_multi h _ _ _ _ _ _
  | bpf_program__attach_usdt h _ _ _ _ => Some h
  | _ => None
  end.

(** The descriptors prog.go takes as opened in a run, in order: those
    [syscall.Open] answered that are not negative, whatever error came with
    them (prog.go tests [fd < 0] and does not look at the error). *)
Definition opened (evs : list event) : list Z :=
  omap (λ ev, match ev with
              | EvOpen _ _ _ fd _ => if fd <? 0 then None else Some fd
              | _ => None
              end) evs.

(** The descriptors a run closed, in order. *)
Definition closed (evs : list event) : list Z :=
  omap (λ ev, match ev with EvClose fd => Some fd | _ => None end) evs.

(** The descriptors a run really opened, in order: those [syscall.Open]
    answered without an error. *)
Definition really_opened (evs : list event) : list Z :=
  omap (λ ev, match ev with
              | EvOpen _ _ _ fd None => Some fd
              | _ => None
              end) evs.

(** [syscall.Open] answered coherently in a run: an error exactly with a
    negative descriptor.  Go's [syscall.Open] does not for a path that holds
    a NUL byte, where it answers 0 with [EINVAL]. *)
Definition Open_coherent (evs : list event) : Prop :=
  ∀ path mode perm fd err,
    EvOpen path mode perm fd err ∈ evs → (err = None ↔ 0 ≤ fd).

(** The descriptor of a directory or of a namespace that a native call is
    given. *)
Definition descriptor_arg (c : ccall) : option Z :=
  match c with
  | bpf_program__attach_cgroup _ fd
  | cgo_bpf_prog_attach_cgroup_legacy _ fd _
  | cgo_bpf_prog_detach_cgroup_legacy _ fd _
  | bpf_program__attach_netns _ fd => Some fd
  | _ => None
  end.

(** What the [RunOpts] structure itself holds: for each buffer the slice
    header (nil, or the address of the backing array and the length), and
    the scalar fields.  The bytes of the backing arrays are not part of the
    structure: the native test run is given their addresses and may write
    to them. *)
Definition header (buf : option bytes) : option (Z * nat) :=
  (λ b, (base b, length (elems b))) <$> buf.

Definition fields_of (ro : RunOpts)
  : list (option (Z * nat)) * list Z :=
  ([header (DataIn ro); header (DataOut ro); header (CtxIn ro); header (CtxOut ro)],
   [DataSizeIn ro; DataSizeOut ro; CtxSizeIn ro; CtxSizeOut ro;
    RetVal ro; Repeat ro; Duration ro; Flags ro; CPU ro; BatchSize ro]).

(** The option structures of the native library. *)
Inductive opts_kind := XdpAttachOpts | KprobeOpts | IterAttachOpts | TestRunOpts.

(** The structures a run was given by the [_new] helpers (a NULL result is
    no structure) and the structures it handed to the [_free] helpers (NULL
    is none), in order. *)
Definition allocated (evs : list event) : list (opts_kind * Z) :=
  omap (λ ev, match ev with
              | EvC (cgo_bpf_xdp_attach_opts_new _) r _ =>
                  if r =? 0 then None else Some (XdpAttachOpts, r)
              | EvC (cgo_bpf_kprobe_opts_new _ _ _ _) r _ =>
                  if r =? 0 then None else Some (KprobeOpts, r)
              | EvC (cgo_bpf_iter_attach_opts_new _ _ _ _ _ _ _) r _ =>
                  if r =? 0 then None else Some (IterAttachOpts, r)
              | EvC (cgo_bpf_test_run_opts_new _ _ _ _ _ _ _ _ _ _ _ _) r _ =>
                  if r =? 0 then None else Some (TestRunOpts, r)
              | _ => None
              end) evs.

Definition freed (evs : list event) : list (opts_kind * Z) :=
  omap (λ ev, match ev with
              | EvC (cgo_bpf_xdp_attach_opts_free o) _ _ =>
                  if o =? 0 then None else Some (XdpAttachOpts, o)
              | EvC (cgo_bpf_kprobe_opts_free o) _ _ =>
                  if o =? 0 then None else Some (KprobeOpts, o)
              | EvC (cgo_bpf_iter_attach_opts_free o) _ _ =>
                  if o =? 0 then None else Some (IterAttachOpts, o)
              | EvC (cgo_bpf_test_run_opts_free o) _ _ =>
                  if o =? 0 then None else Some (TestRunOpts, o)
              | _ => None
              end) evs.

(** The path an attach operation slices with [path[1:]]. *)
Definition sliced_path (op : attach_op) : option string :=
  match op with
  | OpAttachCgroup path | OpAttachCgroupLegacy path _ | OpAttachNetns path => Some path
  | _ => None
  end.

(** The probe an operation of the kprobe or uprobe families asks for:
    whether it is a return probe, and the link type of that kind of probe. *)
Definition probe_kind (op : attach_op) : option (bool * BPFLinkType) :=
  match op with
  | OpAttachKprobe _ | OpAttachKprobeOffset _ => Some (false, Kprobe)
  | OpAttachKretprobe _ | OpAttachKretprobeOnOffset _ => Some (true, Kretprobe)
  | OpAttachUprobe _ _ _ | OpAttachUprobeMulti _ _ _ _ => Some (false, Uprobe)
  | OpAttachURetprobe _ _ _ | OpAttachURetprobeMulti _ _ _ _ => Some (true, Uretprobe)
  | _ => None
  end.

(** The return-probe flag of a native probe call. *)
Definition retprobe_flag (c : ccall) : option bool :=
  match c with
  | cgo_bpf_kprobe_opts_new _ _ retprobe _
  | bpf_program__attach_uprobe _ retprobe _ _ _
  | cgo_bpf_program__attach_uprobe_multi _ _ _ _ _ _ retprobe => Some retprobe
  | _ => None
  end.

(** A second scripted world, where what cannot happen on a sound system
    does: every path opens (the empty one too), the cgroup and netns attach
    calls succeed, [net.InterfaceByName] answers a nil interface with a nil
    error, and the test run fails with code -22. *)
Definition odd_world : Native unit := {|
  cgo c w :=
    (match c with
     | bpf_program__fd _ => (7, 0)
     | bpf_program__name _ => (500, 0)
     | bpf_program__attach_cgroup _ _ => (902, 0)
     | bpf_program__attach_netns _ _ => (907, 0)
     | cgo_bpf_test_run_opts_new _ _ _ _ _ _ _ _ _ _ _ _ => (700, 0)
     | bpf_prog_test_run_opts _ _ => (-22, 22)
     | _ => (0, 0)
     end, w);
  GoString ptr w := if ptr =? 500 then "sched" else "";
  byte_at a w := 0;
  GoBytes_base ptr n w := 0x8000 + ptr;
  test_run_opts_at ptr w := demo_test_run_opts;
  filepath_Abs path w := (demo_Abs path, w);
  syscall_Open path mode perm w := ((3, None), w);
  syscall_Close fd w := w;
  net_InterfaceByName name w := ((None, None), w);
|}.

(** A third scripted world, where [syscall.Open] answers every path as Go
    does for a path that holds a NUL byte: descriptor 0 with [EINVAL]. *)
Definition nul_world : Native unit := {|
  cgo c w := (demo_cgo c, w);
  GoString ptr w := if ptr =? 500 then "sched" else "";
  byte_at a w := a mod 256;
  GoBytes_base ptr n w := 0x8000 + ptr;
  test_run_opts_at ptr w := demo_test_run_opts;
  filepath_Abs path w := (demo_Abs path, w);
  syscall_Open path mode perm w := ((0, Some (Errno 22)), w);
  syscall_Close fd w := w;
  net_InterfaceByName name w := (demo_InterfaceByName name, w);
|}.

(** The lookups of the Go standard library that prog.go takes as failed,
    each with the error the lookup came back with: [filepath.Abs] and
    [net.InterfaceByName] with a non-nil error, [syscall.Open] with a
    negative descriptor.  prog.go does not look at the error of
    [syscall.Open]: an answer with an error and a descriptor that is not
    negative is not taken as failed. *)
Definition rejected_lookup (ev : event) : option (option error) :=
  match ev with
  | EvAbs _ _ (Some e) => Some (Some e)
  | EvOpen _ _ _ fd err => if fd <? 0 then Some err else None
  | EvInterfaceByName _ _ (Some e) => Some (Some e)
  | _ => None
  end.

Definition rejected_lookups (evs : list event) : list (option error) :=
  omap rejected_lookup evs.

(** A lookup that prog.go takes as succeeded. *)
Definition accepted_lookup (ev : event) : bool :=
  match ev with
  | EvAbs _ _ None => true
  | EvOpen _ _ _ fd _ => 0 <=? fd
  | EvInterfaceByName _ _ None => true
  | _ => false
  end.

(** * Verification *)

#[local] Arguments C_int : simpl never.
#[local] Arguments C_uint : simpl never.
#[local] Arguments go_int : simpl never.
#[local] Arguments uintptr : simpl never.
#[local] Arguments wrap_unsigned : simpl never.
#[local] Arguments wrap_signed : simpl never.
#[local] Arguments Errno_of_ret : simpl never.
#[local] Arguments cgo_errno : simpl never.
#[local] Arguments fmt_d : simpl never.
#[local] Arguments fmt_v_uints : simpl never.
#[local] Arguments ReplaceAll : simpl never.
#[local] Arguments String.append : simpl never.

(** Unfold the primitives of the [go] monad. *)
Ltac go_unfold :=
  repeat progress unfold go_bind, ret, go_panic, defer, call_, call, Abs, Open, Close,
    InterfaceByName, C_GoString, C_GoBytes, deref_prog, deref_module, set_pinnedPath,
    new_BPFLink, append_link, iface_Index, log, set_world, set_progs, set_modules,
    set_linkheap in *;
  simpl in *.

(** Unfold the operations of prog.go down to the primitives; the marshalling
    of [Run] stays folded and is handled by its own lemmas. *)
Ltac unfold_ops :=
  unfold exec_attach, exec_code,
    AttachKprobe, AttachKretprobe, AttachKprobeOffset, AttachKretprobeOnOffset,
    AttachUprobe, AttachURetprobe, AttachUprobeMulti, AttachURetprobeMulti,
    AttachCgroupLegacy, DetachCgroupLegacy,
    AttachGeneric, AttachCgroup, AttachXDP, AttachXDPLegacy, DetachXDPLegacy,
    AttachTracepoint, AttachRawTracepoint, AttachLSM, AttachPerfEvent,
    attachKprobeCommon, AttachNetns, AttachIter, doAttachUprobe, doAttachUprobeMulti,
    AttachGenericFD, DetachGenericFD, AttachUSDT,
    Pin, Unpin, SetAutoload, SetAttachTarget, SetType, SetExpectedAttachType,
    getCgroupDirFD, Name, FileDescriptor in *.

(** Case on the next answer of the world, heap lookup or test that decides
    how a run recorded in a hypothesis goes on. *)
Ltac go_destruct :=
  match goal with
  | H : context [match ?x with _ => _ end] |- _ =>
      lazymatch x with
      | context [match _ with _ => _ end] => fail
      | _ => destruct x eqn:?
      end
  | H : context [if ?x then _ else _] |- _ =>
      lazymatch x with
      | context [if _ then _ else _] => fail
      | _ => destruct x eqn:?
      end
  end.

Ltac go_cases := repeat (go_destruct; simpl in *; simplify_eq).

Lemma no_new_events {A} (l evs : list A) : l = l ++ evs → [] = evs.
Proof. intros H. apply (app_inv_head l). by rewrite app_nil_r. Qed.

(** Read the new events off a hypothesis [trace st' = trace st ++ evs] once
    the run has been computed. *)
Ltac new_events H :=
  simpl in H; rewrite <- ?app_assoc in H;
  first [apply app_inv_head in H | apply no_new_events in H];
  simpl in H; subst.

(** Use the tests a run has decided. *)
Ltac rew_tests :=
  simpl;
  repeat match goal with
         | H : (?a <? ?b) = _ |- context [?a <? ?b] => rewrite H
         | H : (?a =? ?b) = _ |- context [?a =? ?b] => rewrite H
         end;
  simpl.

(** Case on which event of an explicit list a membership is about. *)
Ltac in_events H :=
  repeat (apply elem_of_cons in H as [H|H]; [simplify_eq|]);
  try (by apply elem_of_nil in H).

(** ** Integer codes *)

Lemma Errno_of_ret_neg (e : Z) : 0 < e < 2 ^ 31 → Errno_of_ret (- e) = Errno e.
Proof.
  intros He. unfold Errno_of_ret, neg_C_int, C_int, uintptr, wrap_signed, wrap_unsigned.
  f_equal. rewrite Z.opp_involutive.
  change (2 ^ (32 - 1)) with 2147483648. change (2 ^ 32) with 4294967296.
  change (2 ^ 64) with 18446744073709551616. change (2 ^ 31) with 2147483648 in He.
  rewrite (Z.mod_small (e + 2147483648)) by lia.
  rewrite Z.mod_small; lia.
Qed.

(** The least [C.int] is its own negation: the [Errno] made of it is not the
    positive code. *)
Example Errno_of_ret_min : Errno_of_ret (- 2 ^ 31) = Errno (2 ^ 64 - 2 ^ 31).
Proof. reflexivity. Qed.

(** ** Pin, Unpin and the recorded path *)

Section PinUnpin.
Context {W : Type} `{!Native W}.

(** C4: when [Pin p path] succeeds, [PinPath] then returns the string
    [filepath.Abs path] gave; when [Unpin p path] succeeds, [PinPath] then
    returns the empty string. *)
Theorem Pin_Unpin_PinPath (p : nat) (path : string) (st st' : State W) :
  (Pin p path st = (Returns None, st') →
   ∃ absPath w, filepath_Abs path (world st) = (absPath, None, w)
                ∧ PinPath p st' = (Returns absPath, st'))
  ∧ (Unpin p path st = (Returns None, st') →
     PinPath p st' = (Returns "", st')).
Proof.
  split; intros E; unfold Pin, Unpin, Name in E; go_unfold; go_cases.
  - eexists _, _. split; [reflexivity|].
    unfold PinPath. go_unfold. by rewrite lookup_insert_eq.
  - unfold PinPath. go_unfold. by rewrite lookup_insert_eq.
Qed.

(** C9: when [Pin] returns an error (from [filepath.Abs] or from a
    negative native code), and when [Unpin] returns an error, the programs
    of the heap, and so the recorded [pinnedPath], are as before. *)
Theorem Pin_Unpin_error_keeps_pinnedPath (p : nat) (path : string) (e : error)
  (st st' : State W) :
  (Pin p path st = (Returns (Some e), st') →
   progs st' = progs st ∧ (PinPath p st').1 = (PinPath p st).1)
  ∧ (Unpin p path st = (Returns (Some e), st') →
     progs st' = progs st ∧ (PinPath p st').1 = (PinPath p st).1).
Proof.
  split; intros E; unfold Pin, Unpin, Name in E; go_unfold; go_cases;
    (split; [reflexivity|]); unfold PinPath; go_unfold;
    repeat case_match; simplify_eq; reflexivity.
Qed.

(** C10: the first thing [Unpin p path] does at the boundary is the native
    unpin call on [path] itself, and it never asks for an absolute path;
    when the call's code is not negative, [Unpin] returns nil and the
    recorded path becomes the empty string, whatever [path] and whatever
    path was recorded before; when it is negative, [Unpin] returns an error
    and the record stays. *)
Theorem Unpin_verbatim (p : nat) (path : string) (pr : BPFProg)
  (out : outcome (option error)) (st st' : State W) :
  progs st !! p = Some pr →
  Unpin p path st = (out, st') →
  ∃ r en evs,
    trace st' = trace st ++ EvC (bpf_program__unpin (BPFProg.prog pr) path) r en :: evs
    ∧ (∀ a b err, EvAbs a b err ∉ evs)
    ∧ (0 ≤ r →
       out = Returns None
       ∧ progs st' = <[p := BPFProg.mk (BPFProg.prog pr) (BPFProg.module pr) ""]> (progs st))
    ∧ (r < 0 → (∃ e, out = Returns (Some e)) ∧ progs st' = progs st).
Proof.
  intros Hp E. unfold Unpin, Name in E. go_unfold. rewrite Hp in E. go_cases.
  all: eexists _, _, _; (split; [rewrite <- ?app_assoc; reflexivity|]).
  all: split;
    [intros ? ? ? Hin;
     repeat (apply elem_of_cons in Hin as [?|Hin]; [discriminate|]);
     by apply elem_of_nil in Hin|].
  all: split; intros; try lia; eauto.
Qed.
End PinUnpin.

Lemma Pin_Unpin_PinPath_witness :
  let st1 := (Pin 1 "bpf/sched" demo_state).2 in
  let st2 := (Unpin 1 "bpf/sched" st1).2 in
  (∃ absPath w, filepath_Abs "bpf/sched" (world demo_state) = (absPath, None, w)
                ∧ PinPath 1 st1 = (Returns absPath, st1))
  ∧ PinPath 1 st2 = (Returns "", st2).
Proof.
  intros st1 st2. split.
  - exact (proj1 (Pin_Unpin_PinPath 1 "bpf/sched" demo_state st1) eq_refl).
  - exact (proj2 (Pin_Unpin_PinPath 1 "bpf/sched" st1 st2) eq_refl).
Defined.

Lemma Pin_Unpin_error_keeps_pinnedPath_witness :
  let st := (Pin 1 "/sys/fs/bpf/sched" demo_state).2 in
  (progs (Pin 1 "/sys/fs/bpf/denied" st).2 = progs st
   ∧ (PinPath 1 (Pin 1 "/sys/fs/bpf/denied" st).2).1 = Returns "/sys/fs/bpf/sched")
  ∧ (progs (Unpin 1 "/sys/fs/bpf/gone" st).2 = progs st
     ∧ (PinPath 1 (Unpin 1 "/sys/fs/bpf/gone" st).2).1 = Returns "/sys/fs/bpf/sched").
Proof.
  intros st. split.
  - exact (proj1 (Pin_Unpin_error_keeps_pinnedPath 1 "/sys/fs/bpf/denied"
                    (Errorf "failed to pin program %s to %s: %w"
                       [FStr "sched"; FStr "/sys/fs/bpf/denied"] (Some (Errno 13)) true)
                    st (Pin 1 "/sys/fs/bpf/denied" st).2) eq_refl).
  - exact (proj2 (Pin_Unpin_error_keeps_pinnedPath 1 "/sys/fs/bpf/gone"
                    (Errorf "failed to unpin program %s to %s: %w"
                       [FStr "sched"; FStr "/sys/fs/bpf/gone"] (Some (Errno 2)) true)
                    st (Unpin 1 "/sys/fs/bpf/gone" st).2) eq_refl).
Defined.

Lemma Unpin_verbatim_witness :
  let st := (Pin 1 "/sys/fs/bpf/sched" demo_state).2 in
  ∃ r en evs,
    trace (Unpin 1 "somewhere/else" st).2
      = trace st ++ EvC (bpf_program__unpin 100 "somewhere/else") r en :: evs
    ∧ (∀ a b err, EvAbs a b err ∉ evs)
    ∧ (0 ≤ r →
       (Unpin 1 "somewhere/else" st).1 = Returns None
       ∧ progs (Unpin 1 "somewhere/else" st).2 = <[1%nat := BPFProg.mk 100 1 ""]> (progs st))
    ∧ (r < 0 →
       (∃ e, (Unpin 1 "somewhere/else" st).1 = Returns (Some e))
       ∧ progs (Unpin 1 "somewhere/else" st).2 = progs st).
Proof.
  intros st.
  exact (Unpin_verbatim 1 "somewhere/else" (BPFProg.mk 100 1 "/sys/fs/bpf/sched")
           (Unpin 1 "somewhere/else" st).1 st (Unpin 1 "somewhere/else" st).2
           eq_refl eq_refl).
Defined.

(** [Pin] hands the native call the absolute form of a relative path,
    [Unpin] the relative path itself. *)
Example Pin_absolute_Unpin_relative :
  trace (Pin 1 "bpf/sched" demo_state).2
    = [EvAbs "bpf/sched" "/work/bpf/sched" None;
       EvC (bpf_program__pin 100 "/work/bpf/sched") 0 0]
  ∧ trace (Unpin 1 "bpf/sched" demo_state).2
    = [EvC (bpf_program__unpin 100 "bpf/sched") 0 0].
Proof. by vm_compute. Qed.

(** A program pinned at one path and unpinned with another. *)
Example Unpin_other_path :
  let st1 := (Pin 1 "/sys/fs/bpf/sched" demo_state).2 in
  let st2 := (Unpin 1 "somewhere/else" st1).2 in
  (PinPath 1 st1).1 = Returns "/sys/fs/bpf/sched"
  ∧ (Unpin 1 "somewhere/else" st1).1 = Returns None
  ∧ trace st2 = trace st1 ++ [EvC (bpf_program__unpin 100 "somewhere/else") 0 0]
  ∧ (PinPath 1 st2).1 = Returns "".
Proof. vm_compute. done. Qed.

(** ** Computations that leave the heap alone *)

Create HintDb go_frame.

Section Frames.
Context {W : Type} `{!Native W}.

Lemma keeps_heap_ret {A} (a : A) : keeps_heap (W:=W) (ret a).
Proof. by intros st. Qed.

Lemma keeps_heap_panic {A} why : keeps_heap (W:=W) (@go_panic W A why).
Proof. by intros st. Qed.

Lemma keeps_heap_bind {A B} (m : go W A) (k : A → go W B) :
  keeps_heap m → (∀ a, keeps_heap (k a)) → keeps_heap (go_bind m k).
Proof.
  intros Hm Hk st. unfold go_bind. specialize (Hm st).
  destruct (m st) as [[a|why] st1]; simpl in *; [|done].
  destruct (Hk a st1) as (-> & -> & ->). done.
Qed.

Lemma keeps_heap_defer {A} (cleanup : go W unit) (body : go W A) :
  keeps_heap cleanup → keeps_heap body → keeps_heap (defer cleanup body).
Proof.
  intros Hc Hb st. unfold defer. specialize (Hb st).
  destruct (body st) as [o st1]. specialize (Hc st1).
  destruct (cleanup st1) as [u st2]. simpl in *.
  destruct Hc as (-> & -> & ->). done.
Qed.

Lemma keeps_heap_call c : keeps_heap (W:=W) (call c).
Proof. intros st. unfold call. by destruct (cgo c (world st)) as [[r e] w]. Qed.

Lemma keeps_heap_deref_prog p : keeps_heap (W:=W) (deref_prog p).
Proof. intros st. unfold deref_prog. by destruct (progs st !! p). Qed.

Lemma keeps_heap_GoBytes ptr n : keeps_heap (W:=W) (C_GoBytes ptr n).
Proof. intros st. unfold C_GoBytes. by destruct (n <? 0). Qed.

Hint Resolve keeps_heap_ret keeps_heap_panic keeps_heap_call keeps_heap_deref_prog
  keeps_heap_GoBytes : go_frame.

Ltac frame :=
  repeat first
    [ apply keeps_heap_bind; [|intros]
    | apply keeps_heap_defer
    | progress eauto with go_frame
    | match goal with
      | x : (_ * _)%type |- _ => destruct x
      | |- keeps_heap (match ?x with _ => _ end) => destruct x
      | |- keeps_heap (if ?x then _ else _) => destruct x
      end ].

Lemma keeps_heap_FileDescriptor p : keeps_heap (W:=W) (FileDescriptor p).
Proof. unfold FileDescriptor. frame. Qed.

Lemma keeps_heap_runOptsToC opts : keeps_heap (W:=W) (runOptsToC opts).
Proof. unfold runOptsToC, marshal_buffer, addr_of_elem0. frame. Qed.

Lemma keeps_heap_runOptsFromC opts optsC : keeps_heap (W:=W) (runOptsFromC opts optsC).
Proof. unfold runOptsFromC, unmarshal_buffer. frame. by intros st. Qed.

Hint Resolve keeps_heap_FileDescriptor keeps_heap_runOptsToC keeps_heap_runOptsFromC
  : go_frame.

(** C6: whatever [Run] is given and however it ends (nil, an error or a
    panic), it allocates no link and leaves the modules (their [links]) and
    the programs (their [pinnedPath]) as they were. *)
Theorem Run_keeps_heap (p : nat) (opts : option RunOpts) (st : State W) :
  let st' := (Run p opts st).2 in
  linkheap st' = linkheap st ∧ modules st' = modules st ∧ progs st' = progs st.
Proof.
  assert (keeps_heap (W:=W) (Run p opts)) as H.
  { unfold Run, call_. frame. }
  destruct (H st) as (? & ? & ?). done.
Qed.
End Frames.

(** ** Run *)

Section RunProofs.
Context {W : Type} `{!Native W}.

Lemma bind_Returns {A B} (m : go W A) (k : A → go W B) st b st' :
  go_bind m k st = (Returns b, st') →
  ∃ a st1, m st = (Returns a, st1) ∧ k a st1 = (Returns b, st').
Proof.
  unfold go_bind. destruct (m st) as [[a|why] st1]; [eauto|discriminate].
Qed.

Lemma defer_Returns {A} (cleanup : go W unit) (body : go W A) st b st' :
  defer cleanup body st = (Returns b, st') →
  ∃ st1, body st = (Returns b, st1) ∧ st' = (cleanup st1).2.
Proof.
  unfold defer. destruct (body st) as [o st1].
  destruct (cleanup st1) as [u st2] eqn:E.
  intros [= -> ->]. exists st1. by rewrite E.
Qed.

(** C8: the marshalling of a non-nil [RunOpts] returns when every buffer
    that is not nil has length at least 1 (the index of element 0 is then
    in range), and panics with an index out of range when some buffer is
    not nil and has length 0. *)
Theorem runOptsToC_index_precondition (ro : RunOpts) (st : State W) :
  if buffers_indexable ro
  then ∃ v, (runOptsToC (Some ro) st).1 = Returns v
  else (runOptsToC (Some ro) st).1 = Panics IndexOutOfRange.
Proof.
  destruct ro as [di do si so ci co sci sco rv rp du fl cp bs].
  unfold buffers_indexable, indexable, runOptsToC, marshal_buffer, addr_of_elem0.
  go_unfold.
  destruct di as [[? [|? ?]]|], do as [[? [|? ?]]|], ci as [[? [|? ?]]|],
    co as [[? [|? ?]]|]; simpl; try reflexivity.
  all: match goal with |- context [cgo ?c ?w] => destruct (cgo c w) as [[r e] w'] end.
  all: simpl; destruct (r =? 0); eauto.
Qed.

Lemma unmarshal_buffer_Returns old ptr size (st st1 : State W) b :
  unmarshal_buffer old ptr size st = (Returns b, st1) →
  st1 = st
  ∧ b = if ptr =? 0 then old else Some (bytes_at ptr (C_int size) (world st)).
Proof.
  unfold unmarshal_buffer. go_unfold. destruct (ptr =? 0); [by intros [= <- <-]|].
  destruct (C_int size <? 0); simpl; [discriminate|by intros [= <- <-]].
Qed.

Lemma runOptsFromC_Returns ro optsC (st st1 : State W) ro' :
  optsC ≠ 0 →
  runOptsFromC (Some ro) optsC st = (Returns ro', st1) →
  st1 = st
  ∧ ∃ ro1, ro' = Some ro1 ∧ filled_from ro (test_run_opts_at optsC (world st)) (world st) ro1.
Proof.
  intros Hne E. unfold runOptsFromC in E.
  destruct (optsC =? 0) eqn:Hz; [lia|].
  apply bind_Returns in E as (c & s0 & [= <- <-] & E).
  apply bind_Returns in E as (b1 & s1 & (-> & ->)%unmarshal_buffer_Returns & E).
  apply bind_Returns in E as (b2 & s2 & (-> & ->)%unmarshal_buffer_Returns & E).
  apply bind_Returns in E as (b3 & s3 & (-> & ->)%unmarshal_buffer_Returns & E).
  apply bind_Returns in E as (b4 & s4 & (-> & ->)%unmarshal_buffer_Returns & E).
  injection E as <- <-. split; [done|]. eexists. split; [done|].
  unfold filled_from. simpl. repeat split.
Qed.

Lemma runOptsToC_Returns_nonnil ro (st st1 : State W) optsC :
  runOptsToC (Some ro) st = (Returns (optsC, None), st1) → optsC ≠ 0.
Proof.
  unfold runOptsToC. intros E.
  apply bind_Returns in E as ([? ?] & s1 & _ & E).
  apply bind_Returns in E as ([? ?] & s2 & _ & E).
  apply bind_Returns in E as ([? ?] & s3 & _ & E).
  apply bind_Returns in E as ([? ?] & s4 & _ & E).
  apply bind_Returns in E as ([r e] & s5 & _ & E).
  unfold ret in E. destruct (r =? 0) eqn:Hr; [discriminate|].
  injection E as <- <-. lia.
Qed.

(** C5: when [Run p (Some ro)] returns nil, the structure it leaves is
    [ro] filled from the native structure as the test-run call left it:
    the output data and context buffers and the input buffers are replaced
    by copies of the native bytes (a buffer whose native pointer is nil is
    kept as it was), and [RetVal], [Repeat], [Duration], [Flags], [CPU] and
    [BatchSize] are the native values.  The four size fields, which are not
    among the fields the claim lists, are the caller's. *)
Theorem Run_fills_opts (p : nat) (ro : RunOpts) (ro' : option RunOpts) (st st' : State W) :
  Run p (Some ro) st = (Returns (ro', None), st') →
  ∃ progFD optsC w0 r en w ro1,
    cgo (bpf_prog_test_run_opts progFD optsC) w0 = (r, en, w)
    ∧ EvC (bpf_prog_test_run_opts progFD optsC) r en ∈ trace st'
    ∧ 0 ≤ r
    ∧ ro' = Some ro1
    ∧ filled_from ro (test_run_opts_at optsC w) w ro1.
Proof.
  intros E. unfold Run in E.
  apply bind_Returns in E as ([optsC [e|]] & s1 & E1 & E); [discriminate|].
  apply runOptsToC_Returns_nonnil in E1 as Hne.
  apply defer_Returns in E as (s2 & E & ->).
  apply bind_Returns in E as (fd & s3 & _ & E).
  apply bind_Returns in E as ([r en] & s4 & Ec & E).
  unfold call in Ec.
  destruct (cgo (bpf_prog_test_run_opts (C_int fd) optsC) (world s3)) as [[r' en'] w] eqn:Hc.
  injection Ec as -> -> <-.
  destruct (r <? 0) eqn:Hr; [discriminate|].
  apply bind_Returns in E as (o & s5 & E & [= -> <-]).
  apply runOptsFromC_Returns in E as (-> & ro1 & -> & Hf); [|done].
  exists (C_int fd), optsC, (world s3), r, en, w, ro1.
  split; [done|]. split.
  { go_unfold. destruct (cgo (cgo_bpf_test_run_opts_free optsC) w) as [[? ?] ?]. simpl.
    rewrite !elem_of_app, !elem_of_cons. auto. }
  split; [lia|]. split; [done|]. exact Hf.
Qed.

Lemma marshal_buffer_shape buf size (st : State W) :
  ∃ o, marshal_buffer buf size st = (o, st)
       ∧ (o = Panics IndexOutOfRange ∨ ∃ ptr n, o = Returns (ptr, n)).
Proof. destruct buf as [[b [|x l]]|]; simpl; eauto 6. Qed.

Lemma runOptsToC_trace opts (st : State W) :
  ∃ evs, trace (runOptsToC opts st).2 = trace st ++ evs
         ∧ Forall opts_new_event evs
         ∧ ∀ optsC, (runOptsToC opts st).1 = Returns (optsC, None) →
                    opts = None → optsC = 0.
Proof.
  destruct opts as [ro|];
    [|exists []; simpl; rewrite app_nil_r; split_and!;
      [done|constructor|by intros ? [= <-]]].
  unfold runOptsToC, go_bind.
  repeat (match goal with
          | |- context [marshal_buffer ?b ?s ?st] =>
              destruct (marshal_buffer_shape b s st) as (? & -> & [-> | (? & ? & ->)])
          end;
          cbv beta iota;
          [exists []; simpl; rewrite app_nil_r; split_and!; [done|constructor|done]|]).
  unfold call.
  match goal with |- context [cgo ?c ?w] => destruct (cgo c w) as [[r e] w'] end.
  eexists [_]. cbv beta iota. destruct (r =? 0); simpl.
  all: split_and!; [done|by repeat constructor|done].
Qed.

Lemma runOptsFromC_outcome opts optsC (st : State W) :
  (opts = None → optsC = 0) →
  (runOptsFromC opts optsC st).2 = st
  ∧ ((∃ o, (runOptsFromC opts optsC st).1 = Returns o)
     ∨ (runOptsFromC opts optsC st).1 = Panics GoBytesLength).
Proof.
  intros Hnil. unfold runOptsFromC.
  destruct (optsC =? 0) eqn:Hz; [simpl; eauto|].
  destruct opts as [ro|]; [|specialize (Hnil eq_refl); lia].
  unfold unmarshal_buffer. go_unfold.
  repeat match goal with
         | |- context [if ?b then _ else _] => destruct b; simpl; eauto
         end.
Qed.
End RunProofs.

Lemma opts_new_event_quiet (ev : event) :
  opts_new_event ev →
  attach_event ev = false
  ∧ ∀ op c r e, ev = EvC c r e → code_call op c = false.
Proof.
  destruct ev as [c r e| | | |]; try done. destruct c; try done.
  intros _. split; [done|]. intros op c' r' e' [= <- <- <-]. by destruct op.
Qed.

Section RunCode.
Context {W : Type} `{!Native W}.

(** What [Run] makes of the code of its native call, and that it makes no
    attach call. *)
Lemma Run_code p opts (out : outcome (option RunOpts * option error)) (st st' : State W) evs :
  Run p opts st = (out, st') →
  trace st' = trace st ++ evs →
  Forall (λ ev, attach_event ev = false) evs
  ∧ ∀ c r en, EvC c r en ∈ evs → code_call (OpRun opts) c = true →
      (r < 0 → out = Returns (opts, Some (Errorf "failed to run program: %w" []
                                           (Some (Errno_of_ret r)) true)))
      ∧ (0 ≤ r → (∃ o, out = Returns (o, None)) ∨ out = Panics GoBytesLength).
Proof.
  intros E Ht. unfold Run, go_bind in E.
  destruct (runOptsToC_trace opts st) as (evs1 & Ht1 & Hq & Hnil).
  assert (Forall (λ ev, attach_event ev = false) evs1
          ∧ ∀ c r e, EvC c r e ∈ evs1 → code_call (OpRun opts) c = false) as [Hq1 Hq2].
  { split.
    - eapply Forall_impl; [exact Hq|]. intros ev Hev. by apply opts_new_event_quiet.
    - intros c r e Hin. rewrite Forall_forall in Hq.
      by eapply (opts_new_event_quiet _ (Hq _ Hin)). }
  destruct (runOptsToC opts st) as [[[optsC [e|]]|why] s1]; simpl in *.
  - injection E as <- <-.
    assert (evs = evs1) as -> by (apply (app_inv_head (trace st)); congruence).
    split; [done|]. intros c r en Hin Hc. rewrite (Hq2 _ _ _ Hin) in Hc. done.
  - specialize (Hnil optsC eq_refl).
    pose proof (runOptsFromC_outcome opts optsC) as HF.
    unfold defer, FileDescriptor in E. go_unfold. go_cases.
    all: repeat match goal with
                | Hx : runOptsFromC _ _ ?s = (_, _) |- _ =>
                    destruct (HF s Hnil) as [HF1 HF2];
                    rewrite Hx in HF1, HF2; simpl in HF1, HF2; subst; clear Hx
                end.
    all: simpl in Ht; rewrite Ht1 in Ht; rewrite <- ?app_assoc in Ht;
      apply app_inv_head in Ht; subst evs.
    all: split; [apply Forall_app; split; [done|by repeat constructor]|].
    all: intros c r' en' Hin Hc; apply elem_of_app in Hin as [Hin|Hin];
      [by rewrite (Hq2 _ _ _ Hin) in Hc|].
    all: repeat (apply elem_of_cons in Hin as [Hin|Hin];
                 [simplify_eq; try discriminate|]);
      try by apply elem_of_nil in Hin.
    all: split; intros; try lia; try done.
    all: destruct HF2 as [[o Ho]|Ho]; simplify_eq; eauto.
  - injection E as <- <-.
    assert (evs = evs1) as -> by (apply (app_inv_head (trace st)); congruence).
    split; [done|]. intros c r en Hin Hc. rewrite (Hq2 _ _ _ Hin) in Hc. done.
Qed.
End RunCode.

Lemma Run_fills_opts_witness :
  let run := Run 1 (Some demo_RunOpts) demo_state in
  ∃ progFD optsC w0 r en w ro1,
    cgo (bpf_prog_test_run_opts progFD optsC) w0 = (r, en, w)
    ∧ EvC (bpf_prog_test_run_opts progFD optsC) r en ∈ trace run.2
    ∧ 0 ≤ r
    ∧ match run.1 with Returns (ro', _) => ro' | Panics _ => None end = Some ro1
    ∧ filled_from demo_RunOpts (test_run_opts_at optsC w) w ro1.
Proof.
  intros run.
  exact (Run_fills_opts 1 demo_RunOpts
           match run.1 with Returns (ro', _) => ro' | Panics _ => None end
           demo_state run.2 eq_refl).
Defined.

(** The size fields are not written back: the test run of the scripted
    world wrote 4 bytes of output and set [data_size_out] to 4; [Run]
    returns nil and the caller's [DataSizeOut] is still the 14 it passed.
    The size of the output is the length of [DataOut]. *)
Lemma Run_keeps_size_fields :
  ∃ ro1 st',
    Run 1 (Some demo_RunOpts) demo_state = (Returns (Some ro1, None), st')
    ∧ data_size_out (test_run_opts_at 700 (world st')) = 4
    ∧ DataSizeOut ro1 = 14
    ∧ DataSizeOut ro1 ≠ data_size_out (test_run_opts_at 700 (world st')).
Proof. eexists _, _. split; [vm_compute; reflexivity|]. by vm_compute. Qed.

(** The structure of the example in the comment of [Run] has buffers made by
    [make([]byte, 0, 14)]: not nil, of length 0.  Its marshalling panics. *)
Example Run_comment_example_panics :
  let opts := {| DataIn := Some {| base := 0x1000; elems := [] |};
                 DataOut := Some {| base := 0x2000; elems := [] |};
                 DataSizeIn := 14; DataSizeOut := 14;
                 CtxIn := None; CtxOut := None; CtxSizeIn := 0; CtxSizeOut := 0;
                 RetVal := 0; Repeat := 1; Duration := 0; Flags := 0; CPU := 0;
                 BatchSize := 0 |} in
  (Run 1 (Some opts) demo_state).1 = Panics IndexOutOfRange.
Proof. by vm_compute. Qed.

(** ** Integer codes into errors *)

Section Codes.
Context {W : Type} `{!Native W}.

(** C1 (amended): when the native call of one of the twelve operations
    comes back with the code [r], then for [r = -e] with [0 < e < 2^31]
    the operation returns an error that wraps [syscall.Errno(e)], except
    [DetachCgroupLegacy], [AttachXDPLegacy] and [DetachXDPLegacy], whose
    error wraps the [errno] cgo reports for the call; for [0 <= r] the
    operation returns nil ([Run] unless the copy of a buffer panics). *)
Theorem code_to_error (op : code_op) (p : nat) (out : outcome (option error))
  (st st' : State W) (evs : list event) (c : ccall) (r en : Z) :
  exec_code op p st = (out, st') →
  trace st' = trace st ++ evs →
  EvC c r en ∈ evs →
  code_call op c = true →
  (∀ e, 0 < e < 2 ^ 31 → r = - e →
        ∃ err, out = Returns (Some err)
               ∧ Unwrap err = if wraps_errno op then cgo_errno en else Some (Errno e))
  ∧ (0 ≤ r →
     out = Returns None ∨ ((∃ opts, op = OpRun opts) ∧ out = Panics GoBytesLength)).
Proof.
  intros E Ht Hin Hc. revert Ht Hin Hc.
  destruct op; simpl in E.
  12: {
    unfold go_bind, ret in E. destruct (Run p opts st) as [o s] eqn:ER.
    intros Ht Hin Hc.
    assert (s = st') as ->
      by (destruct o as [[? ?]|]; unfold ret in E; simpl in E; congruence).
    destruct (Run_code _ _ _ _ _ _ ER Ht) as [_ HR].
    destruct (HR _ _ _ Hin Hc) as [Hneg Hpos]. split.
    - intros e He ->. rewrite Hneg in E by lia. simpl in E. simplify_eq.
      eexists. split; [done|]. simpl. by rewrite Errno_of_ret_neg.
    - intros Hr. destruct (Hpos Hr) as [[o' ->]| ->]; simpl in E; simplify_eq; eauto.
  }
  all: unfold_ops; go_unfold; go_cases.
  all: intros Ht Hin Hc; new_events Ht; in_events Hin; try discriminate.
  all: split; [intros e He ->|intros Hr]; try lia.
  all: try (eexists; split; [reflexivity|]; simpl; by rewrite ?Errno_of_ret_neg).
  all: by left.
Qed.
End Codes.

Lemma code_to_error_witness :
  let out := (exec_code (OpPin "/sys/fs/bpf/denied") 1 demo_state).1 in
  (∀ e, 0 < e < 2 ^ 31 → -13 = - e →
        ∃ err, out = Returns (Some err) ∧ Unwrap err = Some (Errno e))
  ∧ (0 ≤ -13 →
     out = Returns None
     ∨ ((∃ opts, OpPin "/sys/fs/bpf/denied" = OpRun opts) ∧ out = Panics GoBytesLength)).
Proof.
  intros out.
  refine (code_to_error (OpPin "/sys/fs/bpf/denied") 1 out demo_state
            (exec_code (OpPin "/sys/fs/bpf/denied") 1 demo_state).2
            [EvAbs "/sys/fs/bpf/denied" "/sys/fs/bpf/denied" None;
             EvC (bpf_program__pin 100 "/sys/fs/bpf/denied") (-13) 13;
             EvC (bpf_program__name 100) 500 0]
            (bpf_program__pin 100 "/sys/fs/bpf/denied") (-13) 13 eq_refl eq_refl _ eq_refl).
  apply list_elem_of_further, list_elem_of_here.
Defined.

(** C1, as stated, fails twice.  [DetachCgroupLegacy]: the native call
    returns -1 and leaves [errno] 22; the error wraps [Errno 22], not
    [Errno 1].  [AttachGenericFD]: the native call returns the least [C.int],
    [-2^31]; the error wraps [Errno (2^64 - 2^31)], not [Errno (2^31)]. *)
Lemma code_not_always_Errno_of_code :
  (∃ err st',
     exec_code (OpDetachCgroupLegacy "/sys/fs/cgroup/old" 3) 1 demo_state
       = (Returns (Some err), st')
     ∧ EvC (cgo_bpf_prog_detach_cgroup_legacy 7 5 3) (-1) 22 ∈ trace st'
     ∧ Unwrap err = Some (Errno 22)
     ∧ Unwrap err ≠ Some (Errno 1))
  ∧ (∃ err st',
       exec_code (OpAttachGenericFD 3 0 0) 1 demo_state = (Returns (Some err), st')
       ∧ EvC (bpf_prog_attach 7 3 0 0) (- 2 ^ 31) 0 ∈ trace st'
       ∧ Unwrap err = Some (Errno (2 ^ 64 - 2 ^ 31))
       ∧ Unwrap err ≠ Some (Errno (2 ^ 31))).
Proof.
  split; eexists _, _; (split; [vm_compute; reflexivity|]).
  - split; [|by vm_compute]. apply list_elem_of_In. vm_compute. tauto.
  - split; [|by vm_compute]. apply list_elem_of_In. vm_compute. tauto.
Qed.

(** ** No retry, one fallback *)

Section NoRetry.
Context {W : Type} `{!Native W}.

(** C2 (amended): when an operation made a native attach call that came
    back failed, then every link-returning operation other than
    [AttachCgroupLegacy], and every error-returning operation, returns an
    error and has made no other attach call.  [AttachCgroupLegacy] falls
    back: after the events of the failed first attempt, which hold no
    legacy attach call, it opens the cgroup directory again; when the
    directory cannot be opened it returns an error and does nothing more;
    otherwise it makes the legacy attach call, once, on the program's
    descriptor, the directory's descriptor and the attach type, and returns
    an error, which wraps the [errno] of that call, exactly when this call
    fails as well (with a link otherwise, unless slicing the empty path
    panics). *)
Theorem attach_failure_reported (p : nat) (st st' : State W) (evs : list event)
  (c : ccall) (r en : Z) :
  trace st' = trace st ++ evs →
  EvC c r en ∈ evs →
  attach_call c = true →
  attach_failed c r = true →
  (∀ op out,
     (∀ path t, op ≠ OpAttachCgroupLegacy path t) →
     exec_attach op p st = (out, st') →
     (∃ err, out = Returns (None, Some err))
     ∧ List.filter attach_event evs = [EvC c r en])
  ∧ (∀ op out,
       exec_code op p st = (out, st') →
       (∃ err, out = Returns (Some err))
       ∧ List.filter attach_event evs = [EvC c r en])
  ∧ (∀ path t out,
       exec_attach (OpAttachCgroupLegacy path t) p st = (out, st') →
       ∃ first fd e rest,
         evs = first ++ EvOpen path (Z.lor O_DIRECTORY O_RDONLY) 0 fd e :: rest
         ∧ List.filter legacy_attach_event first = []
         ∧ if fd <? 0
           then rest = [] ∧ ∃ err, out = Returns (None, Some err)
           else ∃ pr progFD e1 r' en',
                  progs st !! p = Some pr
                  ∧ EvC (bpf_program__fd (BPFProg.prog pr)) progFD e1 ∈ rest
                  ∧ List.filter attach_event rest
                    = [EvC (cgo_bpf_prog_attach_cgroup_legacy
                              (C_int (go_int progFD)) (C_int fd) (C_int t)) r' en']
                  ∧ if r' <? 0
                    then ∃ err, out = Returns (None, Some err)
                                ∧ Unwrap err = cgo_errno en'
                    else out = Returns (Some (length (linkheap st)), None)
                         ∨ (path = "" ∧ out = Panics SliceBoundsOutOfRange)).
Proof.
  intros Ht Hin Hc Hf. split_and!.
  - intros op out Hop E. revert Ht Hin Hc Hf.
    destruct op; try (by edestruct Hop); clear Hop.
    all: unfold_ops; go_unfold; go_cases.
    all: intros Ht Hin Hc Hf; new_events Ht; in_events Hin; try discriminate.
    all: simpl in Hf; try congruence.
    all: split; [eauto|reflexivity].
  - intros op out E. revert Ht Hin Hc Hf.
    destruct op; simpl in E.
    12: {
      unfold go_bind, ret in E. destruct (Run p opts st) as [o s] eqn:ER.
      intros Ht Hin Hc.
      assert (s = st') as ->
        by (destruct o as [[? ?]|]; unfold ret in E; simpl in E; congruence).
      destruct (Run_code _ _ _ _ _ _ ER Ht) as [HR _].
      rewrite Forall_forall in HR. specialize (HR _ Hin). simpl in HR. congruence.
    }
    all: unfold_ops; go_unfold; go_cases.
    all: intros Ht Hin Hc Hf; new_events Ht; in_events Hin; try discriminate.
    all: simpl in Hf; try congruence.
    all: split; [eauto|reflexivity].
  - intros path t out E. revert Ht Hin Hc Hf.
    unfold_ops; go_unfold; go_cases.
    all: intros Ht Hin Hc Hf; new_events Ht; in_events Hin; try discriminate.
    all: simpl in Hf; try congruence.
    all: first [ eexists [_], _, _, _; split; [reflexivity|]
               | eexists [_; _; _; _], _, _, _; split; [reflexivity|] ].
    all: split; [reflexivity|].
    all: rew_tests.
    all: try (split; [reflexivity|]; eauto; fail).
    all: eexists _, _, _, _, _; split; [first [eassumption|reflexivity]|].
    all: split; [rewrite !elem_of_cons; eauto 10|].
    all: split; [reflexivity|]; rew_tests.
    all: try (eexists; split; reflexivity).
    all: try (left; reflexivity).
    all: right; split; [|reflexivity].
    all: by match goal with Hx : from1 ?s = None |- _ => destruct s end.
Qed.
End NoRetry.

Lemma attach_failure_reported_witness :
  let run := exec_attach (OpAttachTracepoint "sched" "sched_switch") 1 demo_state in
  (∃ err, run.1 = Returns (None, Some err))
  ∧ List.filter attach_event
      [EvC (bpf_program__attach_tracepoint 100 "sched" "sched_switch") 0 2;
       EvC (bpf_program__name 100) 500 0]
    = [EvC (bpf_program__attach_tracepoint 100 "sched" "sched_switch") 0 2].
Proof.
  intros run.
  refine (proj1 (attach_failure_reported 1 demo_state run.2
                   [EvC (bpf_program__attach_tracepoint 100 "sched" "sched_switch") 0 2;
                    EvC (bpf_program__name 100) 500 0]
                   (bpf_program__attach_tracepoint 100 "sched" "sched_switch") 0 2
                   eq_refl _ eq_refl eq_refl)
            (OpAttachTracepoint "sched" "sched_switch") run.1 _ eq_refl).
  - apply list_elem_of_here.
  - intros path t. discriminate.
Defined.

(** C2, as stated, fails: on a cgroup directory where the link-based attach
    call fails, [AttachCgroupLegacy] goes on to the legacy attach call and
    returns a link and no error. *)
Lemma AttachCgroupLegacy_falls_back :
  ∃ l st',
    exec_attach (OpAttachCgroupLegacy "/sys/fs/cgroup/old" 3) 1 demo_state
      = (Returns (Some l, None), st')
    ∧ EvC (bpf_program__attach_cgroup 100 5) 0 22 ∈ trace st'
    ∧ attach_failed (bpf_program__attach_cgroup 100 5) 0 = true
    ∧ List.filter attach_event (trace st')
      = [EvC (bpf_program__attach_cgroup 100 5) 0 22;
         EvC (cgo_bpf_prog_attach_cgroup_legacy 7 5 3) 0 0].
Proof.
  eexists _, _. split; [vm_compute; reflexivity|].
  split; [|by vm_compute]. apply list_elem_of_In. vm_compute. tauto.
Qed.

(** ** Links: the creating program, the module's list, the tags *)

Section AttachProofs.
Context {W : Type} `{!Native W}.

(** C3 (amended): the link a successful attach operation returns is newly
    allocated and records the creating program in [prog]; it is appended
    to the [links] of the program's module by the operations that
    [appends_to_module] names (cgroup, XDP, tracepoint, raw tracepoint,
    LSM, perf event, the kprobe family, netns, iter) and the modules are
    untouched by the others ([AttachGeneric], the legacy link of
    [AttachCgroupLegacy], the uprobe and uprobe-multi families,
    [AttachUSDT]). *)
Theorem attach_records_prog (op : attach_op) (p l : nat) (st st' : State W) :
  exec_attach op p st = (Returns (Some l, None), st') →
  ∃ lk, linkheap st' = linkheap st ++ [lk]
        ∧ l = length (linkheap st)
        ∧ BPFLink.prog lk = p
        ∧ progs st' = progs st
        ∧ if appends_to_module op lk
          then ∃ pr md, progs st !! p = Some pr
                        ∧ modules st !! BPFProg.module pr = Some md
                        ∧ modules st' =
                            <[BPFProg.module pr := Module.mk (Module.links md ++ [l])]>
                              (modules st)
          else modules st' = modules st.
Proof.
  intros E. destruct op; unfold_ops; go_unfold.
  all: go_cases.
  all: eexists; (split; [reflexivity|]); simpl; repeat split; eauto.
Qed.

(** C7 (amended): the link a successful attach operation returns carries
    the link type, event name and legacy metadata that [tagged] lists for
    the operation and the events of its run: the type of its hook; an
    event name made of the attach parameters and, for the operations that
    [names_program] names, the program's name, and empty for [AttachLSM]
    and [AttachPerfEvent]; legacy metadata (the attach type and the cgroup
    directory, with a nil native link and the type [CgroupLegacy]) on the
    link of [AttachCgroupLegacy] exactly when the run made the legacy
    attach call, and the tags of [AttachCgroup] on it otherwise.  The
    program's name in the event name is the one the run last read through
    [bpf_program__name] on the program's own handle. *)
Theorem attach_tags (op : attach_op) (p l : nat) (st st' : State W) :
  exec_attach op p st = (Returns (Some l, None), st') →
  ∃ lk pr pname evs,
    linkheap st' !! l = Some lk
    ∧ progs st !! p = Some pr
    ∧ trace st' = trace st ++ evs
    ∧ tagged op pname evs lk
    ∧ (names_program op = true → name_read (BPFProg.prog pr) evs pname).
Proof.
  intros E. destruct op; unfold_ops; go_unfold.
  all: go_cases.
  all: eexists _, _, _, _; (split; [by apply list_lookup_middle|]).
  all: split; [first [eassumption|reflexivity]|].
  all: split; [simpl; rewrite <- ?app_assoc; simpl; reflexivity|].
  all: split;
    [|first [ intros Hn; discriminate Hn
            | intros _; unfold name_read; eexists _, _, _, _; split; [reflexivity|];
              split; [eassumption|reflexivity] ]].
  all: unfold tagged, tag_of, dirName; simpl;
    repeat match goal with Hx : from1 _ = _ |- _ => rewrite Hx end; eauto.
  all: try (eexists; split; [|reflexivity]; rewrite !elem_of_cons; eauto 10).
  Unshelve. all: exact "".
Qed.
End AttachProofs.

Lemma attach_records_prog_witness :
  let run := exec_attach (OpAttachCgroup "/sys/fs/cgroup/unified") 1 demo_state in
  ∃ lk, linkheap run.2 = linkheap demo_state ++ [lk]
        ∧ 0%nat = length (linkheap demo_state)
        ∧ BPFLink.prog lk = 1%nat
        ∧ progs run.2 = progs demo_state
        ∧ if appends_to_module (OpAttachCgroup "/sys/fs/cgroup/unified") lk
          then ∃ pr md, progs demo_state !! 1%nat = Some pr
                        ∧ modules demo_state !! BPFProg.module pr = Some md
                        ∧ modules run.2 =
                            <[BPFProg.module pr := Module.mk (Module.links md ++ [0%nat])]>
                              (modules demo_state)
          else modules run.2 = modules demo_state.
Proof.
  intros run.
  exact (attach_records_prog (OpAttachCgroup "/sys/fs/cgroup/unified") 1 0 demo_state run.2
           eq_refl).
Defined.

(** C3, as stated, fails: the link [AttachGeneric] returns records the
    program, and the links of the program's module are as empty as before. *)
Lemma AttachGeneric_not_appended :
  ∃ l lk st',
    exec_attach OpAttachGeneric 1 demo_state = (Returns (Some l, None), st')
    ∧ linkheap st' !! l = Some lk
    ∧ BPFLink.prog lk = 1%nat
    ∧ modules demo_state !! 1%nat = Some (Module.mk [])
    ∧ modules st' !! 1%nat = Some (Module.mk [])
    ∧ l ∉ Module.links (Module.mk []).
Proof.
  eexists _, _, _. split; [vm_compute; reflexivity|].
  split; [vm_compute; reflexivity|]. split_and!; try by vm_compute.
  apply not_elem_of_nil.
Qed.

Lemma attach_tags_witness :
  let op := OpAttachCgroupLegacy "/sys/fs/cgroup/old" 3 in
  let run := exec_attach op 1 demo_state in
  ∃ lk pr pname evs,
    linkheap run.2 !! 0%nat = Some lk
    ∧ progs demo_state !! 1%nat = Some pr
    ∧ trace run.2 = trace demo_state ++ evs
    ∧ tagged op pname evs lk
    ∧ (names_program op = true → name_read (BPFProg.prog pr) evs pname).
Proof.
  intros op run.
  refine (attach_tags op 1 0 demo_state run.2 _).
  vm_compute. reflexivity.
Defined.

(** C7, as stated, fails: the links [AttachPerfEvent] returns for two
    different descriptors, and the link [AttachLSM] returns, all have the
    empty event name. *)
Lemma AttachPerfEvent_empty_event_name :
  ∃ lk3 lk4 lk st3 st4 st',
    exec_attach (OpAttachPerfEvent 3) 1 demo_state = (Returns (Some 0%nat, None), st3)
    ∧ exec_attach (OpAttachPerfEvent 4) 1 demo_state = (Returns (Some 0%nat, None), st4)
    ∧ exec_attach OpAttachLSM 1 demo_state = (Returns (Some 0%nat, None), st')
    ∧ linkheap st3 !! 0%nat = Some lk3
    ∧ linkheap st4 !! 0%nat = Some lk4
    ∧ linkheap st' !! 0%nat = Some lk
    ∧ BPFLink.eventName lk3 = ""
    ∧ BPFLink.eventName lk4 = ""
    ∧ BPFLink.eventName lk = "".
Proof.
  eexists _, _, _, _, _, _.
  split; [vm_compute; reflexivity|]. split; [vm_compute; reflexivity|].
  split; [vm_compute; reflexivity|]. split; [vm_compute; reflexivity|].
  split; [vm_compute; reflexivity|]. split; [vm_compute; reflexivity|].
  by vm_compute.
Qed.

(** Some runs in the scripted world. *)
Example AttachKprobeOffset_tag :
  ∃ st', exec_attach (OpAttachKprobeOffset 4096) 1 demo_state = (Returns (Some 0%nat, None), st')
         ∧ linkheap st' = [BPFLink.mk 905 1 Kprobe "4096" None]
         ∧ modules st' !! 1%nat = Some (Module.mk [0%nat]).
Proof. eexists. split; [vm_compute; reflexivity|]. by vm_compute. Qed.

Example AttachCgroupLegacy_tag :
  ∃ st', exec_attach (OpAttachCgroupLegacy "/sys/fs/cgroup/old" 3) 1 demo_state
           = (Returns (Some 0%nat, None), st')
         ∧ linkheap st' = [BPFLink.mk 0 1 CgroupLegacy "cgroup-sched-sys-fs-cgroup-old"
                             (Some (bpfLinkLegacy.mk 3 "/sys/fs/cgroup/old"))]
         ∧ modules st' !! 1%nat = Some (Module.mk []).
Proof. eexists. split; [vm_compute; reflexivity|]. by vm_compute. Qed.

(** * The rest of prog.go *)

(** ** What the operations leave alone *)

Section MoreFrames.
Context {W : Type} `{!Native W}.

Lemma exec_code_Run_inv p opts (out : outcome (option error)) (st st' : State W) :
  exec_code (OpRun opts) p st = (out, st') →
  ∃ o, Run p opts st = (o, st')
       ∧ out = match o with Returns (_, err) => Returns err | Panics why => Panics why end.
Proof.
  simpl. unfold go_bind, ret. destruct (Run p opts st) as [[[ro err]|why] s]; simpl.
  all: intros [= <- <-]; eauto.
Qed.

Ltac heap_frame :=
  repeat first
    [ apply keeps_heap_bind; [|intros]
    | apply keeps_heap_defer
    | apply keeps_heap_ret
    | apply keeps_heap_panic
    | apply keeps_heap_call
    | apply keeps_heap_deref_prog
    | apply keeps_heap_GoBytes
    | apply keeps_heap_FileDescriptor
    | apply keeps_heap_runOptsToC
    | apply keeps_heap_runOptsFromC
    | match goal with
      | x : (_ * _)%type |- _ => destruct x
      | |- keeps_heap (match ?x with _ => _ end) => destruct x
      | |- keeps_heap (if ?x then _ else _) => destruct x
      end ].

Lemma keeps_heap_Run p opts : keeps_heap (W:=W) (Run p opts).
Proof. unfold Run, call_. heap_frame. Qed.

(** X1: an operation that returns only an error (Pin, Unpin, the setters,
    the descriptor-based attach and detach, the legacy cgroup and XDP calls,
    Run) creates no link and leaves every module's links as they were,
    whatever its outcome.  It leaves every other program untouched and never
    changes this program's native handle or module; the program record
    changes at all only when Pin or Unpin returns nil. *)
Theorem code_op_frame (op : code_op) (p : nat) (out : outcome (option error))
  (st st' : State W) :
  exec_code op p st = (out, st') →
  modules st' = modules st
  ∧ linkheap st' = linkheap st
  ∧ (∀ q, q ≠ p → progs st' !! q = progs st !! q)
  ∧ (∀ pr', progs st' !! p = Some pr' →
       ∃ pr, progs st !! p = Some pr
             ∧ BPFProg.prog pr' = BPFProg.prog pr
             ∧ BPFProg.module pr' = BPFProg.module pr)
  ∧ (match op with OpPin _ | OpUnpin _ => out = Returns None | _ => False end
     ∨ progs st' = progs st).
Proof.
  intros E. destruct op.
  12: {
    apply exec_code_Run_inv in E as (o & ER & _).
    pose proof (keeps_heap_Run p opts st) as HR. rewrite ER in HR. simpl in HR.
    destruct HR as (-> & -> & ->). split_and!; eauto.
  }
  all: simpl in E; unfold_ops; go_unfold; go_cases.
  all: simpl; split_and!; try done.
  all: try (intros q Hq; simpl; by rewrite ?lookup_insert_ne).
  all: try (intros pr' Hpr; simpl in Hpr; rewrite ?lookup_insert_eq in Hpr;
            simplify_eq; by eauto).
  all: try (by left).
  all: try (by right).
Qed.
End MoreFrames.

Section RunEvents.
Context {W : Type} `{!Native W}.

Lemma runOptsToC_cases opts (st : State W) :
  runOptsToC opts st = (Panics IndexOutOfRange, st)
  ∨ (opts = None ∧ runOptsToC opts st = (Returns (0, None), st))
  ∨ (∃ c r e w err,
       opts_new_event (EvC c r e)
       ∧ opts ≠ None
       ∧ cgo c (world st) = (r, e, w)
       ∧ runOptsToC opts st =
           (Returns (if r =? 0 then (0, Some err) else (r, None)),
            log (EvC c r e) (set_world w st))).
Proof.
  destruct opts as [ro|]; [|right; left; split; reflexivity].
  unfold runOptsToC, go_bind.
  repeat (match goal with
          | |- context [marshal_buffer ?b ?s ?st] =>
              destruct (marshal_buffer_shape b s st) as (? & -> & [-> | (? & ? & ->)])
          end;
          cbv beta iota; [by left|]).
  right; right. unfold call.
  match goal with
  | |- context [cgo ?c ?w] =>
      destruct (cgo c w) as [[r e] w'] eqn:Hc; exists c, r, e, w'
  end.
  cbv beta iota. eexists. split; [exact I|]. split; [done|].
  split; [exact Hc|]. unfold ret. destruct (r =? 0); reflexivity.
Qed.

(** The boundary events of [Run], case by case. *)
Lemma Run_events p opts (out : outcome (option RunOpts * option error))
  (st st' : State W) evs :
  Run p opts st = (out, st') →
  trace st' = trace st ++ evs →
  (evs = [] ∧ out = Panics IndexOutOfRange)
  ∨ (∃ new e err, opts_new_event (EvC new 0 e) ∧ evs = [EvC new 0 e]
                  ∧ out = Returns (opts, Some err))
  ∨ (∃ pre optsC,
       ((pre = [] ∧ opts = None ∧ optsC = 0)
        ∨ (∃ new e, opts_new_event (EvC new optsC e) ∧ optsC ≠ 0 ∧ opts ≠ None
                    ∧ pre = [EvC new optsC e]))
       ∧ ((progs st !! p = None
           ∧ (∃ r e, evs = pre ++ [EvC (cgo_bpf_test_run_opts_free optsC) r e])
           ∧ out = Panics NilDereference)
          ∨ (∃ pr fd e1 r e2 r3 e3,
               progs st !! p = Some pr
               ∧ evs = pre ++ [EvC (bpf_program__fd (BPFProg.prog pr)) fd e1;
                               EvC (bpf_prog_test_run_opts (C_int (go_int fd)) optsC) r e2;
                               EvC (cgo_bpf_test_run_opts_free optsC) r3 e3]
               ∧ (r < 0 → ∃ err, out = Returns (opts, Some err))
               ∧ (0 ≤ r → (∃ o, out = Returns (o, None)) ∨ out = Panics GoBytesLength)))).
Proof.
  intros E Ht. unfold Run, go_bind in E.
  destruct (runOptsToC_cases opts st) as [HC|[[-> HC]|(c & r & e & w & err & Hn & Hopts & Hc & HC)]];
    rewrite HC in E; clear HC.
  - injection E as <- <-. left. split; [|done]. new_events Ht. done.
  - pose proof (runOptsFromC_outcome None 0) as HF.
    unfold defer, FileDescriptor in E. go_unfold. go_cases.
    all: repeat match goal with
                | Hx : runOptsFromC _ _ ?s = (_, _) |- _ =>
                    destruct (HF s (λ _, eq_refl)) as [HF1 HF2];
                    rewrite Hx in HF1, HF2; simpl in HF1, HF2; subst; clear Hx
                end.
    all: new_events Ht; right; right; exists [], 0; (split; [by left|]).
    all: try (left; split_and!; by eauto).
    all: right; do 7 eexists; split; [done|]; split; [reflexivity|]; split; intros; try lia;
      eauto.
    all: destruct HF2 as [[o Ho]|Ho]; simplify_eq; eauto.
  - destruct c; try (by destruct Hn). clear Hn.
    destruct (r =? 0) eqn:Hr.
    + apply Z.eqb_eq in Hr as ->. injection E as <- <-. simpl in Ht. new_events Ht.
      right; left. do 3 eexists. split; [|split; reflexivity]. exact I.
    + apply Z.eqb_neq in Hr.
      pose proof (runOptsFromC_outcome opts r) as HF.
      assert (opts = None → r = 0) as Hnil by done.
      unfold defer, FileDescriptor in E. go_unfold. go_cases.
      all: repeat match goal with
                  | Hx : runOptsFromC _ _ ?s = (_, _) |- _ =>
                      destruct (HF s Hnil) as [HF1 HF2];
                      rewrite Hx in HF1, HF2; simpl in HF1, HF2; subst; clear Hx
                  end.
      all: new_events Ht; right; right.
      all: lazymatch type of Hc with
           | cgo ?c _ = _ =>
               exists [EvC c r e], r;
               (split; [right; exists c, e; split_and!; [exact I|done|done|reflexivity]|])
           end.
      all: try (left; split_and!; by eauto).
      all: right; do 7 eexists; split; [done|]; split; [reflexivity|]; split; intros;
        try lia; eauto.
      all: destruct HF2 as [[o Ho]|Ho]; simplify_eq; eauto.
Qed.
End RunEvents.

Ltac unfold_queries :=
  unfold exec_query, GetFd, GetName, GetSectionName, GetPinPath, GetModule, PinPath,
    SectionName, GetType, Autoload, Autoattach, SetAutoattach, SetProgramType,
    SetAttachType in *.

Lemma opts_new_no_handle c r e : opts_new_event (EvC c r e) → program_handle c = None.
Proof. by destruct c. Qed.

Section QueryProofs.
Context {W : Type} `{!Native W}.

(** X2: on a valid program the getters and the three deprecated setters
    (FileDescriptor, GetFd, Name, GetName, SectionName, GetSectionName,
    GetModule, PinPath, GetPinPath, GetType, Autoload, Autoattach,
    SetAutoattach, SetProgramType, SetAttachType) always return and change
    nothing that Go holds.  GetModule and PinPath answer from the program
    record without a call across the boundary, and the deprecated setters
    return nothing even when the native call fails. *)
Theorem query_read_only (op : query_op) (p : nat) (pr : BPFProg) (out : outcome qvalue)
  (st st' : State W) :
  progs st !! p = Some pr →
  exec_query op p st = (out, st') →
  (∃ v, out = Returns v)
  ∧ progs st' = progs st ∧ modules st' = modules st ∧ linkheap st' = linkheap st
  ∧ match op with
    | OpGetModule => out = Returns (QModule (BPFProg.module pr)) ∧ trace st' = trace st
    | OpPinPath | OpGetPinPath =>
        out = Returns (QString (BPFProg.pinnedPath pr)) ∧ trace st' = trace st
    | OpSetAutoattach _ | OpSetProgramType _ | OpSetAttachType _ => out = Returns QNothing
    | _ => True
    end.
Proof.
  intros Hp E. destruct op; unfold_queries; unfold_ops; go_unfold.
  all: go_cases; split_and!; eauto.
Qed.

(** X3: whatever operation of prog.go runs on a program, every native call
    it makes that takes a [bpf_program] handle is given the handle of that
    very program. *)
Theorem own_handle_only (p : nat) (st st' : State W) (evs : list event)
  (c : ccall) (r e h : Z) :
  trace st' = trace st ++ evs →
  EvC c r e ∈ evs →
  program_handle c = Some h →
  (∀ op out, exec_query op p st = (out, st') →
             ∃ pr, progs st !! p = Some pr ∧ h = BPFProg.prog pr)
  ∧ (∀ op out, exec_code op p st = (out, st') →
               ∃ pr, progs st !! p = Some pr ∧ h = BPFProg.prog pr)
  ∧ (∀ op out, exec_attach op p st = (out, st') →
               ∃ pr, progs st !! p = Some pr ∧ h = BPFProg.prog pr).
Proof.
  intros Ht Hin Hh. split_and!; intros op out E; revert Ht Hin Hh.
  - destruct op; unfold_queries; unfold_ops; go_unfold; go_cases.
    all: intros Ht Hin Hh; new_events Ht; in_events Hin; simpl in Hh; simplify_eq; eauto.
  - destruct op.
    12: {
      intros Ht Hin Hh. apply exec_code_Run_inv in E as (o & ER & _).
      destruct (Run_events _ _ _ _ _ _ ER Ht)
        as [[-> _]|[(new & e' & err & Hn & -> & _)|(pre & optsC & Hpre & Hrest)]].
      - by apply elem_of_nil in Hin.
      - in_events Hin. by rewrite (opts_new_no_handle _ _ _ Hn) in Hh.
      - assert (∀ c r e, EvC c r e ∈ pre → program_handle c = None) as Hq.
        { intros c' r' e'' Hin'.
          destruct Hpre as [(-> & _)|(new & e' & Hn & _ & _ & ->)].
          - by apply elem_of_nil in Hin'.
          - in_events Hin'. by apply opts_new_no_handle in Hn. }
        destruct Hrest as [(_ & (r' & e' & ->) & _)|(pr & fd & e1 & r' & e2 & r3 & e3 & Hp & -> & _)].
        all: apply elem_of_app in Hin as [Hin|Hin];
          [rewrite (Hq _ _ _ Hin) in Hh; discriminate|].
        all: in_events Hin; simpl in Hh; simplify_eq; eauto.
    }
    all: simpl in E; unfold_ops; go_unfold; go_cases.
    all: intros Ht Hin Hh; new_events Ht; in_events Hin; simpl in Hh; simplify_eq; eauto.
  - destruct op; unfold_ops; go_unfold; go_cases.
    all: intros Ht Hin Hh; new_events Ht; in_events Hin; simpl in Hh; simplify_eq; eauto.
Qed.

(** X4: an attach operation that returns gives a link or an error, never
    both and never neither; when it gives an error, no link has been
    created and programs and modules are as before. *)
Theorem attach_error_changes_nothing (op : attach_op) (p : nat)
  (l : option nat) (err : option error) (st st' : State W) :
  exec_attach op p st = (Returns (l, err), st') →
  (l = None ↔ err ≠ None)
  ∧ (l = None →
     linkheap st' = linkheap st ∧ modules st' = modules st ∧ progs st' = progs st).
Proof.
  intros E. destruct op; unfold_ops; go_unfold; go_cases.
  all: split; [split; intros; congruence|]; intros; try discriminate; done.
Qed.
End QueryProofs.

(** ** Descriptors and option structures *)

(** Find, in an explicit list of events, the C call a statement is about. *)
Ltac nth_event n :=
  lazymatch n with
  | O => apply list_elem_of_here
  | S ?n' => apply list_elem_of_further; nth_event n'
  end.

Ltac pick_event :=
  let at_ n := (eexists _, _, _; split; [nth_event n|reflexivity]) in
  first [ at_ 0%nat | at_ 1%nat | at_ 2%nat | at_ 3%nat | at_ 4%nat
        | at_ 5%nat | at_ 6%nat | at_ 7%nat | at_ 8%nat ].

Section Resources.
Context {W : Type} `{!Native W}.

Lemma opened_really_opened (evs : list event) :
  Open_coherent evs → opened evs = really_opened evs.
Proof.
  induction evs as [|ev evs IH]; intros Hco; [done|].
  assert (opened evs = really_opened evs) as IH'.
  { apply IH. intros path mode perm fd err Hin.
    apply (Hco path mode perm fd err). by apply list_elem_of_further. }
  destruct ev as [| |path mode perm fd err| |]; try exact IH'.
  specialize (Hco path mode perm fd err (list_elem_of_here _ _)).
  unfold opened, really_opened. simpl. destruct (fd <? 0) eqn:Hfd.
  - apply Z.ltb_lt in Hfd. destruct err; [exact IH'|]. destruct Hco as [Hco _].
    specialize (Hco eq_refl). lia.
  - apply Z.ltb_ge in Hfd. destruct err; [|f_equal; exact IH']. destruct Hco as [_ Hco].
    by specialize (Hco Hfd).
Qed.

(** X5: for every operation other than AttachNetns and every outcome, a
    panic included, the descriptors the run closed are the descriptors it
    took as opened, in the same order: those [syscall.Open] answered that
    are not negative, whatever error came with them.  AttachNetns closes
    nothing.  When [syscall.Open] answered coherently in the run (an error
    exactly with a negative descriptor), the descriptors taken as opened
    are the ones really opened; otherwise they need not be, and the run
    closes a descriptor it did not open. *)
Theorem descriptors_closed (p : nat) (st st' : State W) (evs : list event) :
  trace st' = trace st ++ evs →
  (∀ op out, exec_code op p st = (out, st') → opened evs = closed evs)
  ∧ (∀ op out, exec_attach op p st = (out, st') →
       match op with
       | OpAttachNetns _ => closed evs = []
       | _ => opened evs = closed evs
       end)
  ∧ (Open_coherent evs → opened evs = really_opened evs).
Proof.
  intros Ht. split_and!; [| |apply opened_really_opened]; intros op out E; revert Ht.
  - destruct op.
    12: {
      intros Ht. apply exec_code_Run_inv in E as (o & ER & _).
      destruct (Run_events _ _ _ _ _ _ ER Ht)
        as [[-> _]|[(new & e' & err & Hn & -> & _)|(pre & optsC & Hpre & Hrest)]].
      - done.
      - by destruct new.
      - assert (opened pre = [] ∧ closed pre = []) as [Ho Hc].
        { destruct Hpre as [(-> & _)|(new & e' & Hn & _ & _ & ->)]; [done|].
          by destruct new. }
        destruct Hrest as [(_ & (r' & e' & ->) & _)|(pr & fd & e1 & r' & e2 & r3 & e3 & _ & -> & _)].
        all: unfold opened, closed in *; rewrite !omap_app, Ho, Hc; done.
    }
    all: simpl in E; unfold_ops; go_unfold; go_cases.
    all: intros Ht; new_events Ht; unfold opened, closed; by rew_tests.
  - destruct op; unfold_ops; go_unfold; go_cases.
    all: intros Ht; new_events Ht; unfold opened, closed; by rew_tests.
Qed.

(** X6: when AttachNetns opens the namespace path with success, it opens
    it read-only with permission 0, that descriptor is the only one of the
    run, and the run ends, whether attached, failed or panicked, with the
    descriptor still open. *)
Theorem AttachNetns_keeps_descriptor_open (p : nat) (path : string)
  (out : outcome (option nat * option error)) (st st' : State W) (evs : list event)
  (mode perm fd : Z) (err : option error) :
  AttachNetns p path st = (out, st') →
  trace st' = trace st ++ evs →
  EvOpen path mode perm fd err ∈ evs →
  0 ≤ fd →
  opened evs = [fd] ∧ closed evs = [] ∧ mode = O_RDONLY ∧ perm = 0.
Proof.
  intros E Ht Hin Hfd. revert Ht Hin.
  unfold_ops; go_unfold; go_cases.
  all: intros Ht Hin; new_events Ht; in_events Hin; try lia.
  all: unfold opened, closed; by rew_tests.
Qed.

(** X7: every option structure a run allocated in C memory (XDP attach
    options, kprobe options, iterator options, test-run options) is freed by
    the same run, in the order of allocation, whatever the outcome. *)
Theorem option_structures_freed (p : nat) (st st' : State W) (evs : list event) :
  trace st' = trace st ++ evs →
  (∀ op out, exec_code op p st = (out, st') → allocated evs = freed evs)
  ∧ (∀ op out, exec_attach op p st = (out, st') → allocated evs = freed evs).
Proof.
  intros Ht. split; intros op out E; revert Ht.
  - destruct op.
    12: {
      intros Ht. apply exec_code_Run_inv in E as (o & ER & _).
      destruct (Run_events _ _ _ _ _ _ ER Ht)
        as [[-> _]|[(new & e' & err & Hn & -> & _)|(pre & optsC & Hpre & Hrest)]].
      - done.
      - by destruct new.
      - assert (allocated pre = (if optsC =? 0 then [] else [(TestRunOpts, optsC)])
                ∧ freed pre = []) as [Ha Hf].
        { destruct Hpre as [(-> & _ & ->)|(new & e' & Hn & Hne & _ & ->)]; [done|].
          destruct new; try (by destruct Hn). simpl.
          apply Z.eqb_neq in Hne. by rewrite Hne. }
        destruct Hrest as [(_ & (r' & e' & ->) & _)|(pr & fd & e1 & r' & e2 & r3 & e3 & _ & -> & _)].
        all: unfold allocated, freed in *; rewrite !omap_app, Ha, Hf; simpl.
        all: by destruct (optsC =? 0).
    }
    all: simpl in E; unfold_ops; go_unfold; go_cases.
    all: intros Ht; new_events Ht; unfold allocated, freed; by rew_tests.
  - destruct op; unfold_ops; go_unfold; go_cases.
    all: intros Ht; new_events Ht; unfold allocated, freed; by rew_tests.
Qed.
(** X19: prog.go looks only at the descriptor [syscall.Open] answers, not
    at its error.  Whenever a run on a valid program was answered a
    descriptor that is not negative, whatever error came with it, the run
    hands that descriptor to its native call and, AttachNetns apart, closes
    it.  So where [syscall.Open] answers 0 with [EINVAL], as Go's does for
    a path that holds a NUL byte, the operation acts on descriptor 0 and
    closes it. *)
Theorem Open_error_not_consulted (p : nat) (pr : BPFProg) (st st' : State W)
  (evs : list event) (path : string) (mode perm fd : Z) (err : option error) :
  progs st !! p = Some pr →
  trace st' = trace st ++ evs →
  EvOpen path mode perm fd err ∈ evs →
  0 ≤ fd →
  (∀ op out, exec_code op p st = (out, st') →
     (∃ c r e, EvC c r e ∈ evs ∧ descriptor_arg c = Some (C_int fd))
     ∧ EvClose fd ∈ evs)
  ∧ (∀ op out, exec_attach op p st = (out, st') →
       (∃ c r e, EvC c r e ∈ evs ∧ descriptor_arg c = Some (C_int fd))
       ∧ match op with
         | OpAttachNetns _ => closed evs = []
         | _ => EvClose fd ∈ evs
         end).
Proof.
  intros Hp Ht Hin Hfd. split; intros op out E; revert Hp Ht Hin.
  - destruct op.
    12: {
      intros _ Ht Hin. exfalso. apply exec_code_Run_inv in E as (o & ER & _).
      destruct (Run_events _ _ _ _ _ _ ER Ht)
        as [[-> _]|[(new & e' & err' & Hn & -> & _)|(pre & optsC & Hpre & Hrest)]].
      - in_events Hin.
      - in_events Hin.
      - destruct Hpre as [(-> & _)|(new & e' & _ & _ & _ & ->)];
          destruct Hrest as [(_ & (r' & e'' & ->) & _)
                            |(pr' & fd' & e1 & r' & e2 & r3 & e3 & _ & -> & _)];
          simpl in Hin; in_events Hin.
    }
    all: simpl in E; unfold_ops; go_unfold; go_cases.
    all: intros Hp Ht Hin; new_events Ht; in_events Hin; try lia.
    all: split; [pick_event|rewrite !elem_of_cons; eauto 10].
  - destruct op; unfold_ops; go_unfold; go_cases.
    all: intros Hp Ht Hin; new_events Ht; in_events Hin; try lia.
    all: split; [pick_event|].
    all: first [reflexivity | rewrite !elem_of_cons; eauto 10].
Qed.
End Resources.

(** ** Panics *)

Section Panics.
Context {W : Type} `{!Native W}.

(** X8: on a valid program of a valid module, the getters and deprecated
    setters never panic.  An error-returning operation can panic only in
    the legacy XDP calls, with a nil dereference after
    [net.InterfaceByName] gave a nil interface and a nil error, or in Run,
    with an index out of range or a [C.GoBytes] length.  An attach operation
    can panic only in AttachXDP, in the same way, or in the cgroup and
    netns attaches when the path is empty, with slice bounds out of
    range. *)
Theorem panics_classified (p : nat) (pr : BPFProg) (md : Module) (why : panic)
  (st st' : State W) (evs : list event) :
  progs st !! p = Some pr →
  modules st !! BPFProg.module pr = Some md →
  trace st' = trace st ++ evs →
  (∀ op, exec_query op p st ≠ (Panics why, st'))
  ∧ (∀ op, exec_code op p st = (Panics why, st') →
       match op with
       | OpAttachXDPLegacy dev _ | OpDetachXDPLegacy dev _ =>
           why = NilDereference ∧ EvInterfaceByName dev None None ∈ evs
       | OpRun _ => why = IndexOutOfRange ∨ why = GoBytesLength
       | _ => False
       end)
  ∧ (∀ op, exec_attach op p st = (Panics why, st') →
       match op with
       | OpAttachXDP dev => why = NilDereference ∧ EvInterfaceByName dev None None ∈ evs
       | OpAttachCgroup path | OpAttachCgroupLegacy path _ | OpAttachNetns path =>
           why = SliceBoundsOutOfRange ∧ path = ""
       | _ => False
       end).
Proof.
  intros Hp Hm Ht. split_and!.
  - intros op E. clear Ht. destruct op; unfold_queries; unfold_ops; go_unfold; go_cases.
  - intros op E. revert Ht. destruct op.
    12: {
      intros Ht. apply exec_code_Run_inv in E as (o & ER & Ho).
      destruct (Run_events _ _ _ _ _ _ ER Ht)
        as [[_ ->]|[(new & e' & err & _ & _ & ->)|(pre & optsC & _ & Hrest)]].
      - injection Ho as ->. by left.
      - done.
      - destruct Hrest as [(Hnone & _)|(pr' & fd & e1 & r' & e2 & r3 & e3 & _ & _ & Hneg & Hpos)].
        + congruence.
        + destruct (Z.lt_ge_cases r' 0) as [Hr|Hr].
          * destruct (Hneg Hr) as [err ->]. done.
          * destruct (Hpos Hr) as [[o' ->]| ->]; [done|]. injection Ho as ->. by right.
    }
    all: simpl in E; unfold_ops; go_unfold; go_cases.
    all: intros Ht; new_events Ht; split; [done|].
    all: rewrite !elem_of_cons; auto 10.
  - intros op E. revert Ht. destruct op; unfold_ops; go_unfold; go_cases.
    all: intros Ht; new_events Ht; split; try done.
    all: try (rewrite !elem_of_cons; by auto 10).
    all: by destruct cgroupV2DirPath || by destruct networkNamespacePath.
Qed.
End Panics.

(** ** Links *)

Section Links.
Context {W : Type} `{!Native W}.

(** X9: the link an attach operation returns comes from the last native
    attach call of the run, and that call succeeded.  A legacy cgroup link
    has a nil native pointer; every other link holds the pointer the native
    call returned, which is not nil. *)
Theorem link_holds_native_pointer (op : attach_op) (p l : nat) (st st' : State W)
  (evs : list event) :
  exec_attach op p st = (Returns (Some l, None), st') →
  trace st' = trace st ++ evs →
  ∃ lk c r e,
    linkheap st' !! l = Some lk
    ∧ last (List.filter attach_event evs) = Some (EvC c r e)
    ∧ attach_failed c r = false
    ∧ match BPFLink.linkType lk with
      | CgroupLegacy => BPFLink.link lk = 0
      | _ => BPFLink.link lk = r ∧ r ≠ 0
      end.
Proof.
  intros E Ht. revert Ht. destruct op; unfold_ops; go_unfold; go_cases.
  all: intros Ht; new_events Ht.
  all: eexists _, _, _, _; split; [by apply list_lookup_middle|].
  all: split; [reflexivity|]; simpl.
  all: split; [done|]; try done.
  all: split; [done|]; by apply Z.eqb_neq.
Qed.

(** X10: in the kprobe and uprobe families the entry points ask the
    native library for exactly the kind of probe they are named after: the
    return-probe flag of every native call of the run that has one is true
    for the
    (u)retprobe entry points and false for the others, and the returned link
    has the matching type (Kprobe, Kretprobe, Uprobe, Uretprobe). *)
Theorem probe_flag_matches_tag (op : attach_op) (p l : nat) (st st' : State W)
  (evs : list event) (ret : bool) (t : BPFLinkType) :
  exec_attach op p st = (Returns (Some l, None), st') →
  trace st' = trace st ++ evs →
  probe_kind op = Some (ret, t) →
  (∃ lk, linkheap st' !! l = Some lk ∧ BPFLink.linkType lk = t)
  ∧ (∃ c r e, EvC c r e ∈ evs ∧ retprobe_flag c = Some ret)
  ∧ (∀ c r e b, EvC c r e ∈ evs → retprobe_flag c = Some b → b = ret).
Proof.
  intros E Ht Hk. revert Ht. destruct op; try discriminate Hk; injection Hk as <- <-.
  all: unfold_ops; go_unfold; go_cases.
  all: intros Ht; new_events Ht.
  all: split_and!.
  all: try (eexists; split; [by apply list_lookup_middle|done]).
  all: try (eexists _, _, _; split;
            [first [apply list_elem_of_here
                   |apply list_elem_of_further, list_elem_of_here]
            |reflexivity]).
  all: intros c r e b Hin Hb; in_events Hin; simpl in Hb; congruence.
Qed.

End Links.

(** ** The bookkeeping invariant *)

Section Invariant.
Context {W : Type} `{!Native W}.

Lemma query_heap_effect op p (out : outcome qvalue) (st st' : State W) :
  exec_query op p st = (out, st') →
  progs st' = progs st ∧ modules st' = modules st ∧ linkheap st' = linkheap st.
Proof.
  intros E. destruct op; unfold_queries; unfold_ops; go_unfold; go_cases; done.
Qed.

Lemma code_heap_effect op p (out : outcome (option error)) (st st' : State W) :
  exec_code op p st = (out, st') →
  modules st' = modules st ∧ linkheap st' = linkheap st
  ∧ (progs st' = progs st
     ∨ ∃ pr s, progs st !! p = Some pr
               ∧ progs st' = <[p := BPFProg.mk (BPFProg.prog pr) (BPFProg.module pr) s]>
                               (progs st)).
Proof.
  intros E. destruct op.
  12: {
    apply exec_code_Run_inv in E as (o & ER & _).
    pose proof (keeps_heap_Run p opts st) as HR. rewrite ER in HR. simpl in HR.
    destruct HR as (-> & -> & ->). eauto.
  }
  all: simpl in E; unfold_ops; go_unfold; go_cases.
  all: split_and!; eauto.
Qed.

Lemma attach_heap_effect op p (out : outcome (option nat * option error)) (st st' : State W) :
  exec_attach op p st = (out, st') →
  progs st' = progs st
  ∧ ((linkheap st' = linkheap st ∧ modules st' = modules st)
     ∨ ∃ lk, linkheap st' = linkheap st ++ [lk]
             ∧ BPFLink.prog lk = p
             ∧ (modules st' = modules st
                ∨ ∃ pr md, progs st !! p = Some pr
                           ∧ modules st !! BPFProg.module pr = Some md
                           ∧ modules st' =
                               <[BPFProg.module pr :=
                                   Module.mk (Module.links md ++ [length (linkheap st)])]>
                                 (modules st))).
Proof.
  intros E. destruct op; unfold_ops; go_unfold; go_cases.
  all: split; [done|]; simpl.
  all: try (left; done).
  all: right; eexists; split; [done|]; split; [done|]; eauto 10.
Qed.

Lemma links_consistent_bound (st : State W) m md l :
  links_consistent st → modules st !! m = Some md → l ∈ Module.links md →
  (l < length (linkheap st))%nat.
Proof.
  intros Hc Hm Hl. destruct (Hc m md Hm) as [_ Hall].
  destruct (Hall l Hl) as (lk & pr & Hlk & _). by eapply lookup_lt_Some.
Qed.

(** X11: an attach operation, whatever its outcome, never changes a
    program record, only appends to the links that exist, and only appends
    to the links of each module: no link is ever dropped or reordered. *)
Theorem links_only_grow (op : attach_op) (p : nat)
  (out : outcome (option nat * option error)) (st st' : State W) :
  exec_attach op p st = (out, st') →
  progs st' = progs st
  ∧ linkheap st `prefix_of` linkheap st'
  ∧ ∀ m md, modules st !! m = Some md →
      ∃ md', modules st' !! m = Some md'
             ∧ Module.links md `prefix_of` Module.links md'.
Proof.
  intros E. apply attach_heap_effect in E as (Hp & [(Hl & Hm)|(lk & Hl & _ & Hm)]).
  { rewrite Hp, Hl, Hm. split_and!; [done|done|]. intros m md Hmd. eauto. }
  split; [done|]. split; [rewrite Hl; by apply prefix_app_r|].
  intros m md Hmd. destruct Hm as [->|(pr & md0 & _ & Hmd0 & ->)]; [by eauto|].
  destruct (decide (BPFProg.module pr = m)) as [Heq|Hne].
  - rewrite Heq in *. rewrite lookup_insert_eq. simplify_eq.
    eexists. split; [done|]. simpl. by apply prefix_app_r.
  - rewrite lookup_insert_ne by done. eauto.
Qed.

(** X12: the bookkeeping of links stays consistent.  If every module
    lists each of its links once, and each listed link exists and belongs to
    a program of that module, then the same holds after any operation of
    prog.go, whatever its outcome. *)
Theorem links_consistent_preserved (p : nat) (st st' : State W) :
  links_consistent st →
  (∀ op out, exec_query op p st = (out, st') → links_consistent st')
  ∧ (∀ op out, exec_code op p st = (out, st') → links_consistent st')
  ∧ (∀ op out, exec_attach op p st = (out, st') → links_consistent st').
Proof.
  intros Hc. split_and!; intros op out E.
  - apply query_heap_effect in E as (Hp & Hm & Hl).
    intros m md. rewrite Hm, Hl, Hp. apply Hc.
  - apply code_heap_effect in E as (Hm & Hl & Hp).
    intros m md. rewrite Hm, Hl. intros Hmd.
    destruct (Hc m md Hmd) as [Hnd Hall]. split; [done|].
    intros l Hin. destruct (Hall l Hin) as (lk & pr & Hlk & Hpr & Hmod).
    destruct Hp as [->|(pr0 & s & Hp0 & ->)]; [by eauto|].
    exists lk. destruct (decide (p = BPFLink.prog lk)) as [->|Hne].
    + rewrite lookup_insert_eq. simplify_eq. eauto.
    + rewrite lookup_insert_ne by done. eauto.
  - apply attach_heap_effect in E as (Hp & [(Hl & Hm)|(lk & Hl & Hlp & Hm)]).
    { intros m md. rewrite Hm, Hl, Hp. apply Hc. }
    assert (∀ l lk', linkheap st !! l = Some lk' → linkheap st' !! l = Some lk') as Hext.
    { intros l lk' Hl'. rewrite Hl. by apply lookup_app_l_Some. }
    destruct Hm as [Hm|(pr & md0 & Hpr & Hmd0 & Hm)].
    { intros m md. rewrite Hm, Hp. intros Hmd.
      destruct (Hc m md Hmd) as [Hnd Hall]. split; [done|].
      intros l Hin. destruct (Hall l Hin) as (lk' & pr' & Hlk & Hpr' & Hmod). eauto 10. }
    intros m md. rewrite Hm, Hp. intros Hmd.
    destruct (decide (BPFProg.module pr = m)) as [Heq|Hne].
    + rewrite Heq in *. rewrite lookup_insert_eq in Hmd. injection Hmd as <-. simpl.
      destruct (Hc m md0 Hmd0) as [Hnd Hall]. split.
      * apply NoDup_app. split; [done|]. split; [|apply NoDup_singleton].
        intros l Hin Hin'. apply list_elem_of_singleton in Hin' as ->.
        pose proof (links_consistent_bound _ _ _ _ Hc Hmd0 Hin). lia.
      * intros l Hin. apply elem_of_app in Hin as [Hin|Hin].
        -- destruct (Hall l Hin) as (lk' & pr' & Hlk & Hpr' & Hmod). eauto 10.
        -- apply list_elem_of_singleton in Hin as ->.
           exists lk, pr. rewrite Hl, Hlp. split; [by apply list_lookup_middle|]. done.
    + rewrite lookup_insert_ne in Hmd by done.
      destruct (Hc m md Hmd) as [Hnd Hall]. split; [done|].
      intros l Hin. destruct (Hall l Hin) as (lk' & pr' & Hlk & Hpr' & Hmod). eauto 10.
Qed.
End Invariant.

(** ** Arguments across the boundary *)

Lemma C_int_small (z : Z) : - 2 ^ 31 ≤ z < 2 ^ 31 → C_int z = z.
Proof.
  intros Hz. unfold C_int, wrap_signed.
  change (2 ^ (32 - 1)) with (2 ^ 31). change (2 ^ 32) with (2 * 2 ^ 31).
  rewrite Z.mod_small; lia.
Qed.

Lemma C_uint_small (z : Z) : 0 ≤ z < 2 ^ 32 → C_uint z = z.
Proof. intros Hz. unfold C_uint, wrap_unsigned. by rewrite Z.mod_small. Qed.

Lemma go_int_small (z : Z) : - 2 ^ 63 ≤ z < 2 ^ 63 → go_int z = z.
Proof.
  intros Hz. unfold go_int, wrap_signed.
  change (2 ^ (64 - 1)) with (2 ^ 63). change (2 ^ 64) with (2 * 2 ^ 63).
  rewrite Z.mod_small; lia.
Qed.

Lemma wrap_unsigned_64_small (z : Z) : 0 ≤ z < 2 ^ 64 → wrap_unsigned 64 z = z.
Proof. intros Hz. unfold wrap_unsigned. by rewrite Z.mod_small. Qed.

Lemma C_int_periodic (z k : Z) : C_int (z + k * 2 ^ 32) = C_int z.
Proof.
  unfold C_int, wrap_signed. f_equal.
  replace (z + k * 2 ^ 32 + 2 ^ (32 - 1)) with (z + 2 ^ (32 - 1) + k * 2 ^ 32) by lia.
  by rewrite Z.mod_add.
Qed.

Section Marshalling.
Context {W : Type} `{!Native W}.

(** X13: AttachGenericFD and DetachGenericFD make exactly two native
    calls, the query of the program's descriptor and the attach or detach
    itself, and hand the latter the program's descriptor, the target
    descriptor, the attach type and the flags unchanged and in that order,
    as long as each fits its C type. *)
Theorem GenericFD_passes_arguments (p : nat) (pr : BPFProg)
  (targetFd attachType flags fd e : Z) (w : W) (out : outcome (option error))
  (st st' : State W) :
  progs st !! p = Some pr →
  cgo (bpf_program__fd (BPFProg.prog pr)) (world st) = (fd, e, w) →
  - 2 ^ 31 ≤ fd < 2 ^ 31 →
  - 2 ^ 31 ≤ targetFd < 2 ^ 31 →
  0 ≤ attachType < 2 ^ 32 →
  0 ≤ flags < 2 ^ 32 →
  (AttachGenericFD p targetFd attachType flags st = (out, st') →
   ∃ r en, trace st' = trace st ++ [EvC (bpf_program__fd (BPFProg.prog pr)) fd e;
                                    EvC (bpf_prog_attach fd targetFd attachType flags) r en])
  ∧ (DetachGenericFD p targetFd attachType st = (out, st') →
     ∃ r en, trace st' = trace st ++ [EvC (bpf_program__fd (BPFProg.prog pr)) fd e;
                                      EvC (bpf_prog_detach2 fd targetFd attachType) r en]).
Proof.
  intros Hp Hfd Hr1 Hr2 Hr3 Hr4.
  assert (C_int (go_int fd) = fd) as Hfd'
    by (rewrite go_int_small; [by apply C_int_small|
          change (2 ^ 63) with 9223372036854775808;
          change (2 ^ 31) with 2147483648 in Hr1; lia]).
  assert (C_uint (go_int attachType) = attachType) as Hat
    by (rewrite go_int_small; [by apply C_uint_small|
          change (2 ^ 63) with 9223372036854775808;
          change (2 ^ 32) with 4294967296 in Hr3; lia]).
  assert (C_uint (wrap_unsigned 64 flags) = flags) as Hfl
    by (rewrite wrap_unsigned_64_small; [by apply C_uint_small|
          change (2 ^ 64) with 18446744073709551616;
          change (2 ^ 32) with 4294967296 in Hr4; lia]).
  split; intros E; unfold_ops; go_unfold; rewrite Hp in E; simpl in E; rewrite Hfd in E;
    simpl in E; rewrite Hfd', (C_int_small targetFd), Hat, ?Hfl in E by done.
  all: go_cases; eexists _, _; rewrite <- !app_assoc; reflexivity.
Qed.

(** X14: the operations that take a descriptor as a Go [int] convert it
    to a C [int] without a check: two descriptors that differ by a multiple
    of 2^32 give the same run of AttachPerfEvent, SetAttachTarget,
    AttachGenericFD and DetachGenericFD. *)
Theorem descriptor_arguments_truncated (p : nat) (fd k : Z) (st : State W) :
  AttachPerfEvent p (fd + k * 2 ^ 32) st = AttachPerfEvent p fd st
  ∧ (∀ name, SetAttachTarget p (fd + k * 2 ^ 32) name st = SetAttachTarget p fd name st)
  ∧ (∀ attachType flags,
       AttachGenericFD p (fd + k * 2 ^ 32) attachType flags st
       = AttachGenericFD p fd attachType flags st)
  ∧ (∀ attachType,
       DetachGenericFD p (fd + k * 2 ^ 32) attachType st = DetachGenericFD p fd attachType st).
Proof.
  unfold AttachPerfEvent, SetAttachTarget, AttachGenericFD, DetachGenericFD.
  rewrite !C_int_periodic. done.
Qed.

(** X15: Run with nil options allocates nothing: it queries the
    program's descriptor, calls [bpf_prog_test_run_opts] with a NULL options
    pointer, frees NULL, and returns nil options, with an error exactly when
    the native call returned a negative code. *)
Theorem Run_nil_opts (p : nat) (pr : BPFProg) (out : outcome (option RunOpts * option error))
  (st st' : State W) :
  progs st !! p = Some pr →
  Run p None st = (out, st') →
  ∃ fd e1 r e2 r3 e3,
    trace st' = trace st ++ [EvC (bpf_program__fd (BPFProg.prog pr)) fd e1;
                             EvC (bpf_prog_test_run_opts (C_int (go_int fd)) 0) r e2;
                             EvC (cgo_bpf_test_run_opts_free 0) r3 e3]
    ∧ out = Returns (None, if r <? 0
                           then Some (Errorf "failed to run program: %w" []
                                        (Some (Errno_of_ret r)) true)
                           else None).
Proof.
  intros Hp E. unfold Run, runOptsToC, runOptsFromC, FileDescriptor in E. go_unfold.
  go_cases.
  all: do 6 eexists; split; [rewrite <- !app_assoc; reflexivity|].
  all: by rew_tests.
Qed.

Lemma runOptsFromC_state opts optsC (st : State W) : (runOptsFromC opts optsC st).2 = st.
Proof.
  unfold runOptsFromC. destruct (optsC =? 0); [done|]. destruct opts as [ro|]; [|done].
  unfold unmarshal_buffer. go_unfold.
  repeat match goal with
         | |- context [if ?b then _ else _] => destruct b; simpl; try done
         end.
Qed.

Lemma Run_trace_extends p opts (st : State W) :
  ∃ evs, trace (Run p opts st).2 = trace st ++ evs.
Proof.
  unfold Run, go_bind.
  destruct (runOptsToC_trace opts st) as (evs1 & Ht1 & _).
  destruct (runOptsToC opts st) as [[[optsC [e|]]|why] s1]; simpl in *; [by eauto| |by eauto].
  unfold defer, FileDescriptor. go_unfold.
  repeat (match goal with
          | |- context [progs ?s !! ?q] => destruct (progs s !! q)
          | |- context [cgo ?c ?w] => destruct (cgo c w) as [[? ?] ?]
          | |- context [runOptsFromC ?o ?c ?s] =>
              pose proof (runOptsFromC_state o c s) as HS;
              destruct (runOptsFromC o c s) as [[?|?] s']; simpl in HS; subst s'
          | |- context [if ?b then _ else _] => destruct b
          end; simpl).
  all: rewrite Ht1, <- ?app_assoc; eauto.
Qed.

(** X16: when Run returns an error, the caller's structure is not
    written: it has the slice headers and scalar fields it had, for nothing
    is copied back from the native structure.  (The bytes of the caller's
    buffers are another matter: the native call was given their addresses
    and may have written to them before it failed.) *)
Theorem Run_error_keeps_opts (p : nat) (opts o : option RunOpts) (err : error)
  (st st' : State W) :
  Run p opts st = (Returns (o, Some err), st') →
  fields_of <$> o = fields_of <$> opts.
Proof.
  intros E. f_equal.
  destruct (Run_trace_extends p opts st) as [evs Ht]. rewrite E in Ht. simpl in Ht.
  destruct (Run_events _ _ _ _ _ _ E Ht)
    as [[_ ?]|[(new & e' & err' & _ & _ & Ho)|(pre & optsC & _ & Hrest)]];
    [done|by simplify_eq|].
  destruct Hrest as [(_ & _ & ?)|(pr' & fd & e1 & r' & e2 & r3 & e3 & _ & _ & Hneg & Hpos)];
    [done|].
  destruct (Z.lt_ge_cases r' 0) as [Hr|Hr].
  - destruct (Hneg Hr) as [err' Ho]. by simplify_eq.
  - destruct (Hpos Hr) as [[o' Ho]|Ho]; by simplify_eq.
Qed.
End Marshalling.

(** ** Event names of paths *)

Lemma append_one (c : ascii) (s : string) : String c "" +:+ s = String c s.
Proof. reflexivity. Qed.

Lemma ReplaceAll_cons (c : ascii) (s : string) (old : ascii) (new : string) :
  ReplaceAll (String c s) old new
  = (if Ascii.eqb c old then new else String c "") +:+ ReplaceAll s old new.
Proof. reflexivity. Qed.

Lemma ReplaceAll_length (s : string) (old new : ascii) :
  String.length (ReplaceAll s old (String new "")) = String.length s.
Proof.
  induction s as [|c s IH]; [done|].
  rewrite ReplaceAll_cons. destruct (Ascii.eqb c old); rewrite append_one; simpl;
    by rewrite IH.
Qed.

Lemma ReplaceAll_get (s : string) (old new : ascii) (i : nat) :
  String.get i (ReplaceAll s old (String new ""))
  = (λ c, if Ascii.eqb c old then new else c) <$> String.get i s.
Proof.
  revert i. induction s as [|c s IH]; intros i; [done|].
  rewrite ReplaceAll_cons. destruct i as [|i]; simpl.
  - by destruct (Ascii.eqb c old); rewrite append_one.
  - destruct (Ascii.eqb c old); rewrite append_one; simpl; apply IH.
Qed.

Lemma dirName_shape (path : string) :
  String.length (dirName path) = pred (String.length path)
  ∧ (∀ i, String.get i (dirName path) ≠ Some "/"%char)
  ∧ (∀ i c, String.get (S i) path = Some c → c ≠ "/"%char →
            String.get i (dirName path) = Some c)
  ∧ (∀ c c' rest, dirName (String c rest) = dirName (String c' rest)).
Proof.
  unfold dirName. destruct path as [|c0 rest]; simpl.
  - split_and!; done.
  - split_and!; try done.
    + apply ReplaceAll_length.
    + intros i. rewrite ReplaceAll_get.
      destruct (String.get i rest) as [c|]; simpl; [|done].
      destruct (Ascii.eqb c "/") eqn:Hc; [done|].
      intros [= ->]. by rewrite Ascii.eqb_refl in Hc.
    + intros i c Hget Hne. rewrite ReplaceAll_get, Hget. simpl.
      destruct (Ascii.eqb c "/") eqn:Hc; [|done].
      by apply Ascii.eqb_eq in Hc.
Qed.

Section PathNames.
Context {W : Type} `{!Native W}.

(** X17: the event name of a cgroup or netns link ends with the path
    given, less its first byte and with every slash replaced by a dash; the
    first byte is dropped whatever it is, so a link is only returned for a
    non-empty path, the name's last part is one byte shorter than the path,
    holds no slash, and keeps every other byte in place. *)
Theorem path_event_name (op : attach_op) (path : string) (p l : nat) (st st' : State W) :
  sliced_path op = Some path →
  exec_attach op p st = (Returns (Some l, None), st') →
  ∃ lk pname,
    linkheap st' !! l = Some lk
    ∧ BPFLink.eventName lk
      = (match op with OpAttachNetns _ => "netns-" | _ => "cgroup-" end)
          +:+ pname +:+ "-" +:+ dirName path
    ∧ path ≠ ""
    ∧ String.length (dirName path) = pred (String.length path)
    ∧ (∀ i, String.get i (dirName path) ≠ Some "/"%char)
    ∧ (∀ i c, String.get (S i) path = Some c → c ≠ "/"%char →
              String.get i (dirName path) = Some c).
Proof.
  intros Hs E.
  destruct (dirName_shape path) as (Hlen & Hno & Hkeep & _).
  destruct op; try discriminate; injection Hs as ->.
  all: unfold_ops; go_unfold; go_cases.
  all: eexists _, _; split; [by apply list_lookup_middle|]; simpl.
  all: unfold dirName in *;
    repeat match goal with Hx : from1 _ = _ |- _ => rewrite Hx in * end.
  all: split; [reflexivity|]; split; [by intros ->|]; done.
Qed.
End PathNames.

(** ** Lookups taken as failed *)

Section Lookups.
Context {W : Type} `{!Native W}.

Lemma Open_failed (fd : Z) : (fd <? 0) = false → (0 <=? fd) = false → False.
Proof. intros H1 H2. apply Z.ltb_ge in H1. apply Z.leb_gt in H2. lia. Qed.

(** X18: when prog.go took every lookup of a run as failed, and there
    was one ([filepath.Abs] or [net.InterfaceByName] with an error,
    [syscall.Open] with a negative descriptor; the error of [syscall.Open]
    is not looked at), the operation returns an error without making its
    native call.  The error of the last such lookup is returned as it is
    by the uprobe family, wrapped (found by [errors.Unwrap]) by the other
    operations, and only formatted into the message, not wrapped, by
    Pin. *)
Theorem rejected_lookup_stops (p : nat) (st st' : State W) (evs : list event)
  (fail : option error) :
  trace st' = trace st ++ evs →
  last (rejected_lookups evs) = Some fail →
  (∀ ev, ev ∈ evs → accepted_lookup ev = false) →
  (∀ op out, exec_code op p st = (out, st') →
     ∃ err, out = Returns (Some err)
            ∧ (∀ c r e, EvC c r e ∈ evs → code_call op c = false)
            ∧ Unwrap err = match op with OpPin _ => None | _ => fail end)
  ∧ (∀ op out, exec_attach op p st = (out, st') →
       ∃ err, out = Returns (None, Some err)
              ∧ List.filter attach_event evs = []
              ∧ match op with
                | OpAttachUprobe _ _ _ | OpAttachURetprobe _ _ _
                | OpAttachUprobeMulti _ _ _ _ | OpAttachURetprobeMulti _ _ _ _ =>
                    fail = Some err
                | _ => Unwrap err = fail
                end).
Proof.
  intros Ht Hl Hok. split; intros op out E; revert Ht Hl Hok.
  - destruct op.
    12: {
      intros Ht Hl _. exfalso. apply exec_code_Run_inv in E as (o & ER & _).
      assert (rejected_lookups evs = []) as Hnone; [|by rewrite Hnone in Hl].
      destruct (Run_events _ _ _ _ _ _ ER Ht)
        as [[-> _]|[(new & e' & err & Hn & -> & _)|(pre & optsC & Hpre & Hrest)]].
      - done.
      - by destruct new.
      - assert (rejected_lookups pre = []) as Hp.
        { destruct Hpre as [(-> & _)|(new & e' & Hn & _ & _ & ->)]; [done|].
          by destruct new. }
        destruct Hrest as [(_ & (r' & e' & ->) & _)|(pr & fd & e1 & r' & e2 & r3 & e3 & _ & -> & _)].
        all: unfold rejected_lookups in *; rewrite !omap_app, Hp; done.
    }
    all: simpl in E; unfold_ops; go_unfold; go_cases.
    all: intros Ht Hl Hok; new_events Ht.
    all: unfold rejected_lookups in Hl; simpl in Hl;
      repeat match type of Hl with
             | context [?a <? ?b] =>
                 match goal with Hx : (a <? b) = _ |- _ => rewrite Hx in Hl; simpl in Hl end
             end; try discriminate.
    all: try (exfalso;
      match goal with
      | Hx : (?z <? 0) = false |- _ =>
          by (apply (Open_failed z Hx); eapply (Hok (EvOpen _ _ _ z _));
              rewrite !elem_of_cons; eauto 10)
      | |- _ => by (discriminate (Hok (EvAbs _ _ None) ltac:(rewrite !elem_of_cons; eauto 10)))
      | |- _ => by (discriminate (Hok (EvInterfaceByName _ _ None)
                                    ltac:(rewrite !elem_of_cons; eauto 10)))
      end).
    all: simplify_eq; eexists; split; [reflexivity|]; split; [|reflexivity].
    all: intros c0 r0 e0 Hin; in_events Hin; done.
  - destruct op; unfold_ops; go_unfold; go_cases.
    all: intros Ht Hl Hok; new_events Ht.
    all: unfold rejected_lookups in Hl; simpl in Hl;
      repeat match type of Hl with
             | context [?a <? ?b] =>
                 match goal with Hx : (a <? b) = _ |- _ => rewrite Hx in Hl; simpl in Hl end
             end; try discriminate.
    all: try (exfalso;
      match goal with
      | Hx : (?z <? 0) = false |- _ =>
          by (apply (Open_failed z Hx); eapply (Hok (EvOpen _ _ _ z _));
              rewrite !elem_of_cons; eauto 10)
      | |- _ => by (discriminate (Hok (EvInterfaceByName _ _ None)
                                    ltac:(rewrite !elem_of_cons; eauto 10)))
      end).
    all: simplify_eq; eexists; split; [reflexivity|]; split; reflexivity.
Qed.
End Lookups.

(** ** The properties above, on concrete runs *)

Lemma code_op_frame_witness :
  let run := exec_code (OpPin "bpf/sched") 1 demo_state in
  modules run.2 = modules demo_state
  ∧ linkheap run.2 = linkheap demo_state
  ∧ (∀ q, q ≠ 1%nat → progs run.2 !! q = progs demo_state !! q)
  ∧ (∀ pr', progs run.2 !! 1%nat = Some pr' →
       ∃ pr, progs demo_state !! 1%nat = Some pr
             ∧ BPFProg.prog pr' = BPFProg.prog pr
             ∧ BPFProg.module pr' = BPFProg.module pr)
  ∧ (run.1 = Returns None ∨ progs run.2 = progs demo_state).
Proof.
  intros run.
  refine (code_op_frame (OpPin "bpf/sched") 1 run.1 demo_state run.2 _).
  vm_compute. reflexivity.
Defined.

Lemma query_read_only_witness :
  let run := exec_query OpGetModule 1 demo_state in
  (∃ v, run.1 = Returns v)
  ∧ progs run.2 = progs demo_state ∧ modules run.2 = modules demo_state
  ∧ linkheap run.2 = linkheap demo_state
  ∧ run.1 = Returns (QModule 1%nat) ∧ trace run.2 = trace demo_state.
Proof.
  intros run.
  refine (query_read_only OpGetModule 1 (BPFProg.mk 100 1 "") run.1 demo_state run.2 _ _).
  - vm_compute. reflexivity.
  - vm_compute. reflexivity.
Defined.

Lemma own_handle_only_witness :
  let run := exec_attach (OpAttachKprobe "do_sys_open") 1 demo_state in
  ∃ pr, progs demo_state !! 1%nat = Some pr ∧ 100 = BPFProg.prog pr.
Proof.
  intros run.
  refine (proj2 (proj2 (own_handle_only 1 demo_state run.2
            [EvC (cgo_bpf_kprobe_opts_new 0 0 false 0) 800 0;
             EvC (bpf_program__attach_kprobe_opts 100 "do_sys_open" 800) 905 0;
             EvC (cgo_bpf_kprobe_opts_free 800) 0 0]
            (bpf_program__attach_kprobe_opts 100 "do_sys_open" 800) 905 0 100 _ _ _))
            (OpAttachKprobe "do_sys_open") run.1 _).
  - vm_compute. reflexivity.
  - apply list_elem_of_In. vm_compute. tauto.
  - reflexivity.
  - vm_compute. reflexivity.
Defined.

Lemma attach_error_changes_nothing_witness :
  let run := exec_attach (OpAttachTracepoint "syscalls" "sys_enter_openat") 1 demo_state in
  ∃ err,
    run.1 = Returns (None, Some err)
    ∧ ((None : option nat) = None ↔ Some err ≠ None)
    ∧ ((None : option nat) = None →
       linkheap run.2 = linkheap demo_state ∧ modules run.2 = modules demo_state
       ∧ progs run.2 = progs demo_state).
Proof.
  intros run.
  exists (Errorf "failed to attach tracepoint %s to program %s: %w"
            [FStr "sys_enter_openat"; FStr "sched"] (Some (Errno 2)) true).
  split; [vm_compute; reflexivity|].
  refine (attach_error_changes_nothing
            (OpAttachTracepoint "syscalls" "sys_enter_openat") 1 None _ demo_state run.2 _).
  vm_compute. reflexivity.
Defined.

Lemma descriptors_closed_witness :
  let run := exec_attach (OpAttachCgroupLegacy "/sys/fs/cgroup/old" 2) 1 demo_state in
  opened (trace run.2) = [5; 5]
  ∧ opened (trace run.2) = closed (trace run.2)
  ∧ (Open_coherent (trace run.2) → opened (trace run.2) = really_opened (trace run.2)).
Proof.
  intros run. split; [vm_compute; reflexivity|].
  assert (trace run.2 = trace demo_state ++ trace run.2) as Ht
    by (vm_compute; reflexivity).
  split.
  - refine (proj1 (proj2 (descriptors_closed 1 demo_state run.2 (trace run.2) Ht))
              (OpAttachCgroupLegacy "/sys/fs/cgroup/old" 2) run.1 _).
    vm_compute. reflexivity.
  - exact (proj2 (proj2 (descriptors_closed 1 demo_state run.2 (trace run.2) Ht))).
Defined.

Lemma AttachNetns_keeps_descriptor_open_witness :
  let evs :=
    [EvOpen "/proc/self/ns/net" O_RDONLY 0 4 None;
     EvC (bpf_program__attach_netns 100 4) 0 0;
     EvC (bpf_program__name 100) 500 0] in
  opened evs = [4] ∧ closed evs = [] ∧ O_RDONLY = O_RDONLY ∧ 0 = 0.
Proof.
  intros evs.
  refine (AttachNetns_keeps_descriptor_open 1 "/proc/self/ns/net"
            (AttachNetns 1 "/proc/self/ns/net" demo_state).1 demo_state
            (AttachNetns 1 "/proc/self/ns/net" demo_state).2 evs O_RDONLY 0 4 None _ _ _ _).
  - vm_compute. reflexivity.
  - vm_compute. reflexivity.
  - apply list_elem_of_In. vm_compute. tauto.
  - lia.
Defined.

Lemma option_structures_freed_witness :
  let evs :=
    [EvC (cgo_bpf_kprobe_opts_new 0 0 false 0) 800 0;
     EvC (bpf_program__attach_kprobe_opts 100 "do_sys_open" 800) 905 0;
     EvC (cgo_bpf_kprobe_opts_free 800) 0 0] in
  allocated evs = [(KprobeOpts, 800)] ∧ allocated evs = freed evs.
Proof.
  intros evs. split; [reflexivity|].
  refine (proj2 (option_structures_freed 1 demo_state
            (exec_attach (OpAttachKprobe "do_sys_open") 1 demo_state).2 evs _)
            (OpAttachKprobe "do_sys_open")
            (exec_attach (OpAttachKprobe "do_sys_open") 1 demo_state).1 _).
  - vm_compute. reflexivity.
  - vm_compute. reflexivity.
Defined.

Lemma panics_classified_witness :
  let st := mkState tt [] {[ 1%nat := BPFProg.mk 100 1 "" ]} {[ 1%nat := Module.mk [] ]} [] in
  (∃ st', exec_attach (Native0 := odd_world) (OpAttachCgroup "") 1 st
          = (Panics SliceBoundsOutOfRange, st'))
  ∧ SliceBoundsOutOfRange = SliceBoundsOutOfRange ∧ "" = "".
Proof.
  intros st.
  pose (run := exec_attach (Native0 := odd_world) (OpAttachCgroup "") 1 st).
  split; [exists run.2; vm_compute; reflexivity|].
  refine (proj2 (proj2 (panics_classified (Native0 := odd_world) 1 (BPFProg.mk 100 1 "")
            (Module.mk []) SliceBoundsOutOfRange st run.2
            [EvOpen "" O_DIRECTORY 0 3 None;
             EvC (bpf_program__attach_cgroup 100 3) 902 0; EvClose 3] _ _ _))
            (OpAttachCgroup "") _).
  - vm_compute. reflexivity.
  - vm_compute. reflexivity.
  - vm_compute. reflexivity.
  - vm_compute. reflexivity.
Defined.

Lemma link_holds_native_pointer_witness :
  let run := exec_attach (OpAttachKretprobe "do_sys_open") 1 demo_state in
  ∃ lk c r e,
    linkheap run.2 !! 0%nat = Some lk
    ∧ last (List.filter attach_event (trace run.2)) = Some (EvC c r e)
    ∧ attach_failed c r = false
    ∧ match BPFLink.linkType lk with
      | CgroupLegacy => BPFLink.link lk = 0
      | _ => BPFLink.link lk = r ∧ r ≠ 0
      end.
Proof.
  intros run.
  refine (link_holds_native_pointer (OpAttachKretprobe "do_sys_open") 1 0 demo_state run.2
            (trace run.2) _ _).
  - vm_compute. reflexivity.
  - vm_compute. reflexivity.
Defined.

Lemma probe_flag_matches_tag_witness :
  let run := exec_attach (OpAttachKretprobe "do_sys_open") 1 demo_state in
  (∃ lk, linkheap run.2 !! 0%nat = Some lk ∧ BPFLink.linkType lk = Kretprobe)
  ∧ (∃ c r e, EvC c r e ∈ trace run.2 ∧ retprobe_flag c = Some true)
  ∧ (∀ c r e b, EvC c r e ∈ trace run.2 → retprobe_flag c = Some b → b = true).
Proof.
  intros run.
  refine (probe_flag_matches_tag (OpAttachKretprobe "do_sys_open") 1 0 demo_state run.2
            (trace run.2) true Kretprobe _ _ _).
  - vm_compute. reflexivity.
  - vm_compute. reflexivity.
  - reflexivity.
Defined.

Lemma links_only_grow_witness :
  let run := exec_attach (OpAttachCgroup "/sys/fs/cgroup/unified") 1 demo_state in
  progs run.2 = progs demo_state
  ∧ linkheap demo_state `prefix_of` linkheap run.2
  ∧ ∀ m md, modules demo_state !! m = Some md →
      ∃ md', modules run.2 !! m = Some md'
             ∧ Module.links md `prefix_of` Module.links md'.
Proof.
  intros run.
  refine (links_only_grow (OpAttachCgroup "/sys/fs/cgroup/unified") 1 run.1 demo_state
            run.2 _).
  vm_compute. reflexivity.
Defined.

Lemma links_consistent_preserved_witness :
  let run := exec_attach (OpAttachCgroup "/sys/fs/cgroup/unified") 1 demo_state in
  Module.links <$> modules run.2 !! 1%nat = Some [0%nat] ∧ links_consistent run.2.
Proof.
  intros run. split; [vm_compute; reflexivity|].
  refine (proj2 (proj2 (links_consistent_preserved 1 demo_state run.2 _))
            (OpAttachCgroup "/sys/fs/cgroup/unified") run.1 _).
  - intros m md Hm. unfold demo_state in Hm. simpl in Hm.
    apply lookup_singleton_Some in Hm as [_ <-].
    split; [constructor|]. intros l Hl. by apply elem_of_nil in Hl.
  - vm_compute. reflexivity.
Defined.

Lemma GenericFD_passes_arguments_witness :
  let run := AttachGenericFD 1 9 2 1 demo_state in
  ∃ r en, trace run.2 = trace demo_state ++ [EvC (bpf_program__fd 100) 7 0;
                                             EvC (bpf_prog_attach 7 9 2 1) r en].
Proof.
  intros run.
  refine (proj1 (GenericFD_passes_arguments 1 (BPFProg.mk 100 1 "") 9 2 1 7 0 tt run.1
            demo_state run.2 _ _ _ _ _ _) _).
  - vm_compute. reflexivity.
  - reflexivity.
  - lia.
  - lia.
  - lia.
  - lia.
  - vm_compute. reflexivity.
Defined.

Lemma Run_nil_opts_witness :
  let run := Run 1 None demo_state in
  ∃ fd e1 r e2 r3 e3,
    trace run.2 = trace demo_state ++ [EvC (bpf_program__fd 100) fd e1;
                             EvC (bpf_prog_test_run_opts (C_int (go_int fd)) 0) r e2;
                             EvC (cgo_bpf_test_run_opts_free 0) r3 e3]
    ∧ run.1 = Returns (None, if r <? 0
                             then Some (Errorf "failed to run program: %w" []
                                          (Some (Errno_of_ret r)) true)
                             else None).
Proof.
  intros run.
  refine (Run_nil_opts 1 (BPFProg.mk 100 1 "") run.1 demo_state run.2 _ _).
  - vm_compute. reflexivity.
  - vm_compute. reflexivity.
Defined.

Lemma Run_error_keeps_opts_witness :
  let run := Run (Native0 := odd_world) 1 (Some demo_RunOpts) demo_state in
  run.1 = Returns (Some demo_RunOpts,
                   Some (Errorf "failed to run program: %w" [] (Some (Errno 22)) true))
  ∧ fields_of <$> Some demo_RunOpts = fields_of <$> Some demo_RunOpts.
Proof.
  intros run. split; [vm_compute; reflexivity|].
  refine (Run_error_keeps_opts (Native0 := odd_world) 1 (Some demo_RunOpts)
            (Some demo_RunOpts)
            (Errorf "failed to run program: %w" [] (Some (Errno 22)) true)
            demo_state run.2 _).
  vm_compute. reflexivity.
Defined.

Lemma path_event_name_witness :
  let run := exec_attach (OpAttachCgroup "/sys/fs/cgroup/unified") 1 demo_state in
  ∃ lk pname,
    linkheap run.2 !! 0%nat = Some lk
    ∧ BPFLink.eventName lk
      = "cgroup-" +:+ pname +:+ "-" +:+ dirName "/sys/fs/cgroup/unified"
    ∧ "/sys/fs/cgroup/unified" ≠ ""
    ∧ String.length (dirName "/sys/fs/cgroup/unified")
      = pred (String.length "/sys/fs/cgroup/unified")
    ∧ (∀ i, String.get i (dirName "/sys/fs/cgroup/unified") ≠ Some "/"%char)
    ∧ (∀ i c, String.get (S i) "/sys/fs/cgroup/unified" = Some c → c ≠ "/"%char →
              String.get i (dirName "/sys/fs/cgroup/unified") = Some c).
Proof.
  intros run.
  refine (path_event_name (OpAttachCgroup "/sys/fs/cgroup/unified")
            "/sys/fs/cgroup/unified" 1 0 demo_state run.2 _ _).
  - reflexivity.
  - vm_compute. reflexivity.
Defined.

Lemma rejected_lookup_stops_witness :
  let run := exec_attach (OpAttachXDP "wlan9") 1 demo_state in
  let fail := LibError "route ip+net: no such network interface" in
  ∃ err, run.1 = Returns (None, Some err)
         ∧ List.filter attach_event [EvInterfaceByName "wlan9" None (Some fail)] = []
         ∧ Unwrap err = Some fail.
Proof.
  intros run fail.
  refine (proj2 (rejected_lookup_stops 1 demo_state run.2
            [EvInterfaceByName "wlan9" None (Some fail)] (Some fail) _ _ _)
            (OpAttachXDP "wlan9") run.1 _).
  - vm_compute. reflexivity.
  - reflexivity.
  - intros ev Hin. in_events Hin. reflexivity.
  - vm_compute. reflexivity.
Defined.

Lemma Open_error_not_consulted_witness :
  let run := exec_attach (Native0 := nul_world) (OpAttachCgroup "/sys/fs/cgroup/unified") 1
               demo_state in
  let evs :=
    [EvOpen "/sys/fs/cgroup/unified" (Z.lor O_DIRECTORY O_RDONLY) 0 0 (Some (Errno 22));
     EvC (bpf_program__attach_cgroup 100 0) 902 0;
     EvC (bpf_program__name 100) 500 0;
     EvClose 0] in
  trace run.2 = evs
  ∧ (∃ c r e, EvC c r e ∈ evs ∧ descriptor_arg c = Some (C_int 0))
  ∧ EvClose 0 ∈ evs.
Proof.
  intros run evs. split; [vm_compute; reflexivity|].
  refine (proj2 (Open_error_not_consulted (Native0 := nul_world) 1 (BPFProg.mk 100 1 "")
            demo_state run.2 evs "/sys/fs/cgroup/unified" (Z.lor O_DIRECTORY O_RDONLY) 0 0
            (Some (Errno 22)) _ _ _ _)
            (OpAttachCgroup "/sys/fs/cgroup/unified") run.1 _).
  - vm_compute. reflexivity.
  - vm_compute. reflexivity.
  - apply list_elem_of_here.
  - lia.
  - vm_compute. reflexivity.
Defined.
